(** * Verification of the recommendation engine of [advisor.py]

    The development embeds [clamp], the nested helper [adjust],
    [recommend] and [save_history] of [src/advisor.py] and settles the
    properties that the specification states about them.

    The code of [recommend] is embedded twice, and each property is stated on the
    embedding that carries what it speaks about.

    - Module [Advisor] follows the control flow, the strings and the list
      objects of [recommend] over finite numbers compared exactly: a float
      is a rational of [Q], [<] and [>] are [Qltb].  The properties of the
      lookup, of the order of the messages and tips and of the sharing
      between a result and the rule table are stated on it.
    - Module [Advisor64] is the same code over Python's numbers as they
      are: a float is an IEEE 754 binary64 value (NaN, the infinities and
      the signed zeros included, every operation rounded to the nearest
      double), a number of the rule table is an [int] or a [float], and
      [round] and the conversion of an [int] raise where Python raises.
      Every property about a computed number or about the text of a
      formatted float is stated on it.

    Further choices, all visible in the definitions below:

    - A Python [int] is a [Z].
    - A Python [str] is a [string] holding its UTF-8 bytes; [strip] and
      [lower] are those of the ASCII range, and the properties of the
      normal form of a crop key are stated for ASCII strings
      ([Str.is_ascii]).
    - [round(x)] is Python 3's rounding to the nearest integer, ties to the
      even one.
    - Exceptions are values of [exc]; a computation that may raise returns
      [exc + A].
    - The lists that [recommend] creates and mutates ([messages], [tips])
      and the [notes] lists owned by the rule table are objects in a heap,
      addressed by reference, so that aliasing between a result and the
      rule table is expressible. *)

From Stdlib Require Import QArith Qabs Qround Qpower Lqa ZArith Lia Ascii.
From Stdlib Require Import Floats.SpecFloat.
From stdpp Require Import gmap strings list fin_maps sorting pretty.

(** ** Numbers *)

Module Num.

(** [a < b] on Python floats. *)
Definition Qltb (a b : Q) : bool :=
  (Qnum a * QDen b <? Qnum b * QDen a)%Z.

(** The builtin [max(a, b)]: the first argument unless the second is
    strictly greater. *)
Definition py_max (a b : Q) : Q := if Qltb a b then b else a.

(** The builtin [min(a, b)]: the first argument unless the second is
    strictly smaller. *)
Definition py_min (a b : Q) : Q := if Qltb b a then b else a.

(** [def clamp(x, lo, hi): return max(lo, min(hi, x))] *)
Definition clamp (x lo hi : Q) : Q := py_max lo (py_min hi x).

(** The builtin [round(x)] of Python 3 on a float: nearest integer, a tie
    goes to the even neighbour. *)
Definition py_round (x : Q) : Z :=
  let f := Qfloor x in
  match (x - inject_Z f ?= 1 # 2)%Q with
  | Lt => f
  | Gt => (f + 1)%Z
  | Eq => if Z.even f then f else (f + 1)%Z
  end.

(** [round(x, 2)]: nearest multiple of 1/100, ties to even. *)
Definition py_round2 (x : Q) : Q := (inject_Z (py_round (x * 100)) / 100)%Q.
End Num.

(** ** Strings *)

Module Str.

(** The strings of the ASCII range: every byte is below 128. *)
Definition is_ascii_char (c : ascii) : bool := (Ascii.N_of_ascii c <? 128)%N.

Fixpoint is_ascii (s : string) : bool :=
  match s with
  | "" => true
  | String c s' => is_ascii_char c && is_ascii s'
  end.

(** [str.isspace] on the ASCII range: tab, line feed, vertical tab, form
    feed, carriage return, the four separators 0x1c-0x1f and the space. *)
Definition is_space (c : ascii) : bool :=
  match c with
  | "009" | "010" | "011" | "012" | "013"
  | "028" | "029" | "030" | "031" | " " => true
  | _ => false
  end%char.

Fixpoint lstrip (s : string) : string :=
  match s with
  | "" => ""
  | String c s' => if is_space c then lstrip s' else s
  end.

Definition rstrip (s : string) : string := String.rev (lstrip (String.rev s)).

(** [s.strip()] *)
Definition strip (s : string) : string := rstrip (lstrip s).

Definition lower_char (c : ascii) : ascii :=
  let n := Ascii.N_of_ascii c in
  if ((65 <=? n) && (n <=? 90))%N then Ascii.ascii_of_N (n + 32) else c.

(** [s.lower()] *)
Fixpoint lower (s : string) : string :=
  match s with
  | "" => ""
  | String c s' => String (lower_char c) (lower s')
  end.

(** [sep.join(l)] *)
Fixpoint join (sep : string) (l : list string) : string :=
  match l with
  | [] => ""
  | [x] => x
  | x :: l' => x +:+ sep +:+ join sep l'
  end.

(** [sorted(l)] on strings: ascending in the order of [str], which compares
    code points and so agrees with the byte order of UTF-8. *)
Definition sorted (l : list string) : list string := merge_sort String.le l.

(** The format [{x:.1f}]: sign, integer part, a point and exactly one
    digit; the tenths are rounded to nearest, ties to even. *)
Definition format_1f (x : Q) : string :=
  let m := Num.py_round (Qabs x * 10) in
  (if Num.Qltb x 0 then "-" else "")
    +:+ pretty (m `div` 10)%Z +:+ "." +:+ pretty (m `mod` 10)%Z.

Fixpoint prefix (p s : string) : bool :=
  match p, s with
  | "", _ => true
  | String a p', String b s' => if Ascii.eqb a b then prefix p' s' else false
  | String _ _, "" => false
  end.




End Str.

(** ** Exceptions, the heap and the monad of statements *)

Module Py.

(** The builtin exception classes that matter here, with Python's subclass
    relation between them. *)
Inductive exc_class :=
  | Exception
  | ArithmeticError
  | ZeroDivisionError
  | OverflowError
  | LookupError
  | IndexError
  | KeyError
  | ValueError.

Definition issubclass (c d : exc_class) : bool :=
  match d, c with
  | Exception, _ => true
  | ArithmeticError, (ArithmeticError | ZeroDivisionError | OverflowError) =>
      true
  | ZeroDivisionError, ZeroDivisionError => true
  | OverflowError, OverflowError => true
  | LookupError, (LookupError | IndexError | KeyError) => true
  | IndexError, IndexError => true
  | KeyError, KeyError => true
  | ValueError, ValueError => true
  | _, _ => false
  end.

(** A raised exception: its class and its message. *)
Record exc := Exc { exc_type : exc_class; exc_msg : string }.

Definition isinstance (e : exc) (c : exc_class) : bool :=
  issubclass (exc_type e) c.

(** [a / b] on floats. *)
Definition truediv (a b : Q) : exc + Q :=
  if Qeq_bool b 0 then inl (Exc ZeroDivisionError "float division by zero")
  else inr (a / b)%Q.

(** A reference to a list object, and the heap of the list objects
    allocated so far; a new object takes the next free position. *)
Definition ref := nat.
Abbreviation heap := (list (list string)).

(** The items of the list object at [r]. *)
Definition deref (h : heap) (r : ref) : list string := default [] (h !! r).

(** A statement: it runs from a heap, returns a value or raises, and leaves
    a heap. *)
Definition M (A : Type) : Type := heap -> (exc + A) * heap.

Definition ret {A} (a : A) : M A := fun h => (inr a, h).

Definition bind {A B} (m : M A) (f : A -> M B) : M B :=
  fun h =>
    match m h with
    | (inl e, h') => (inl e, h')
    | (inr a, h') => f a h'
    end.

Definition raise {A} (e : exc) : M A := fun h => (inl e, h).

(** Evaluate an expression that may raise and has no effect on the heap. *)
Definition eval {A} (x : exc + A) : M A := fun h => (x, h).

(** A list display [[x1, ..., xn]]: a new list object. *)
Definition new_list (l : list string) : M ref :=
  fun h => (inr (length h), h ++ [l]).

(** [list(r)]: a new list object with the items of [r]. *)
Definition list_of (r : ref) : M ref :=
  fun h => (inr (length h), h ++ [deref h r]).

(** [r.append(s)]: the object at [r] is changed in place. *)
Definition append (r : ref) (s : string) : M unit :=
  fun h => (inr tt, <[r := deref h r ++ [s]]> h).

End Py.

Notation "'let*' x ':=' m 'in' k" := (Py.bind m (fun x => k))
  (at level 10, x pattern, m at level 100, k at level 200).
Notation "'do' m 'in' k" := (Py.bind m (fun _ => k))
  (at level 10, m at level 100, k at level 200).

(** ** The rule table, the result and [recommend] *)

Module Advisor.
Import Num Str Py.

(** One entry of [rules["crops"]]: [ideal_ph] is a pair [[low, high]],
    [base_npk] a triple [[N, P, K]]; the key [notes] is optional and, when
    present, refers to a list object. *)
Record CropRule := {
  ideal_ph : Q * Q;
  base_npk : Q * Q * Q;
  notes : option ref
}.

(** [rules["thresholds"]] *)
Record Thresholds := {
  low_rainfall_mm : Z;
  high_rainfall_mm : Z;
  low_n : Q;
  low_p : Q;
  low_k : Q
}.

(** The rule table as [load_rules] returns it. *)
Record Rules := {
  crops : gmap string CropRule;
  thresholds : Thresholds
}.

(** [result["inputs"]] *)
Record Inputs := {
  soil_ph : Q;
  soil_n : Q;
  soil_p : Q;
  soil_k : Q;
  rainfall_mm : Z
}.

(** [result["recommendation"]] *)
Record Recommendation := {
  npk_estimate : list Z;
  explain : string
}.

(** The dict that [recommend] returns; [messages] and [tips] hold
    references to the two list objects built during the call. *)
Record Result := {
  crop : string;
  inputs : Inputs;
  recommendation : Recommendation;
  messages : ref;
  tips : ref
}.

(** [key in d] *)
Definition contains {V} (d : gmap string V) (key : string) : bool :=
  bool_decide (is_Some (d !! key)).

(** [d[key]] *)
Definition getitem {V} (d : gmap string V) (key : string) : exc + V :=
  match d !! key with
  | Some v => inr v
  | None => inl (Exc KeyError ("'" +:+ key +:+ "'"))
  end.

(** [d.keys()] *)
Definition keys {V} (d : gmap string V) : list string := (map_to_list d).*1.

(** The nested function [adjust] of [recommend]. *)
Definition adjust (base soil_value low_thr : Q) : exc + Z :=
  if Qltb soil_value low_thr then
    match truediv (low_thr - soil_value) (py_max low_thr (1 # 1000000)) with
    | inl e => inl e
    | inr d =>
        let severity := clamp d 0 1 in
        inr (py_round (base * (1 + (3 # 10) * severity)))
    end
  else inr (py_round base).

Definition ph_low_msg (soil_ph : Q) (crop_key : string) : string :=
  "Soil pH (" +:+ format_1f soil_ph +:+ ") is LOW for " +:+ crop_key
    +:+ ". Consider liming (after soil test).".

Definition ph_high_msg (soil_ph : Q) (crop_key : string) : string :=
  "Soil pH (" +:+ format_1f soil_ph +:+ ") is HIGH for " +:+ crop_key
    +:+ ". Consider organic matter / sulfur guidance (after soil test).".

Definition ph_ok_msg (soil_ph : Q) (crop_key : string) : string :=
  "Soil pH (" +:+ format_1f soil_ph +:+ ") is within ideal range for "
    +:+ crop_key +:+ ".".

(** The pH messages are those that open with "Soil pH (". *)
Definition is_ph_message (msg : string) : bool := prefix "Soil pH (" msg.

Definition rain_low_tip : string :=
  "Rainfall is low: plan irrigation, mulching, or drought-tolerant practices.".
Definition rain_high_tip : string :=
  "High rainfall: ensure drainage and monitor fungal disease risk.".
Definition rain_moderate_tip : string :=
  "Rainfall seems moderate: keep basic moisture monitoring.".

Definition n_low_msg : string :=
  "Nitrogen looks low → expect weaker growth if not corrected.".
Definition p_low_msg : string :=
  "Phosphorus looks low → root development may be limited.".
Definition k_low_msg : string :=
  "Potassium looks low → stress tolerance and quality may drop.".

Definition explain_text : string :=
  "Rule-based estimate using base crop needs + simple thresholds. Verify with local soil test.".

Definition unknown_crop_msg (crop : string) (known : list string) : string :=
  "Unknown crop '" +:+ crop +:+ "'. Try one of: " +:+ join ", " (sorted known).

(** [recommend(crop, soil_ph, n, p, k, rainfall_mm, rules)] *)
Definition recommend (crop : string) (soil_ph n p k : Q) (rainfall_mm : Z)
    (rules : Rules) : M Result :=
  let crop_key := lower (strip crop) in
  let crops := crops rules in
  if negb (contains crops crop_key) then
    raise (Exc ValueError (unknown_crop_msg crop (keys crops)))
  else
    let* c := eval (getitem crops crop_key) in
    let '(ideal_low, ideal_high) := ideal_ph c in
    let '(baseN, baseP, baseK) := base_npk c in
    let t := thresholds rules in
    let* messages := new_list [] in
    let* empty := new_list [] in
    let* tips := list_of (default empty (notes c)) in
    do (if Qltb soil_ph ideal_low then
          append messages (ph_low_msg soil_ph crop_key)
        else if Qltb ideal_high soil_ph then
          append messages (ph_high_msg soil_ph crop_key)
        else
          append messages (ph_ok_msg soil_ph crop_key)) in
    do (if (rainfall_mm <? low_rainfall_mm t)%Z then
          append tips rain_low_tip
        else if (high_rainfall_mm t <? rainfall_mm)%Z then
          append tips rain_high_tip
        else
          append tips rain_moderate_tip) in
    let* recN := eval (adjust baseN n (low_n t)) in
    let* recP := eval (adjust baseP p (low_p t)) in
    let* recK := eval (adjust baseK k (low_k t)) in
    do (if Qltb n (low_n t) then append messages n_low_msg else ret tt) in
    do (if Qltb p (low_p t) then append messages p_low_msg else ret tt) in
    do (if Qltb k (low_k t) then append messages k_low_msg else ret tt) in
    ret {| crop := crop_key;
           inputs := {| soil_ph := py_round2 soil_ph;
                        soil_n := py_round2 n;
                        soil_p := py_round2 p;
                        soil_k := py_round2 k;
                        rainfall_mm := rainfall_mm |};
           recommendation := {| npk_estimate := [recN; recP; recK];
                                explain := explain_text |};
           messages := messages;
           tips := tips |}.

(** What a caller reads from a result: the two lists by their items. *)
Record ResultValue := {
  v_crop : string;
  v_inputs : Inputs;
  v_recommendation : Recommendation;
  v_messages : list string;
  v_tips : list string
}.

Definition read_result (h : heap) (r : Result) : ResultValue :=
  {| v_crop := crop r;
     v_inputs := inputs r;
     v_recommendation := recommendation r;
     v_messages := deref h (messages r);
     v_tips := deref h (tips r) |}.

(** The outcome of a call as a caller observes it. *)
Definition observe (run : (exc + Result) * heap) : exc + ResultValue :=
  match run with
  | (inl e, _) => inl e
  | (inr r, h) => inr (read_result h r)
  end.

(** The maize rule and the thresholds of the specification's example, with
    the notes of maize held at reference 0, and a second crop that has no
    notes. *)
Definition example_heap : heap := [["Plant at onset of rains."; "Rotate with legumes."]].

Definition example_rules : Rules :=
  {| crops :=
       <["maize" := {| ideal_ph := (55 # 10, 7)%Q; base_npk := (120, 60, 40)%Q;
                       notes := Some 0%nat |}]>
       (<["coffee" := {| ideal_ph := (5, 6)%Q; base_npk := (100, 50, 80)%Q;
                         notes := None |}]> ∅);
     thresholds := {| low_rainfall_mm := 400; high_rainfall_mm := 1200;
                      low_n := 30; low_p := 20; low_k := 25 |} |}.

(** A table with one crop. *)
Definition single_crop (key : string) (c : CropRule) (t : Thresholds) : Rules :=
  {| crops := {[ key := c ]}; thresholds := t |}.

Definition example_thresholds : Thresholds :=
  {| low_rainfall_mm := 400; high_rainfall_mm := 1200;
     low_n := 30; low_p := 20; low_k := 25 |}.

(** Tables that are well-formed but unusual: a base that is not a whole
    number, a negative base, an ideal pH range given upper bound first, and
    rainfall thresholds given upper bound first. *)
Definition fractional_base_rules : Rules :=
  single_crop "maize"
    {| ideal_ph := (55 # 10, 7)%Q; base_npk := (1204 # 10, 60, 40)%Q;
       notes := None |}
    example_thresholds.

Definition negative_base_rules : Rules :=
  single_crop "maize"
    {| ideal_ph := (55 # 10, 7)%Q; base_npk := (-100, 60, 40)%Q;
       notes := None |}
    example_thresholds.

Definition inverted_ph_rules : Rules :=
  single_crop "maize"
    {| ideal_ph := (7, 55 # 10)%Q; base_npk := (120, 60, 40)%Q;
       notes := None |}
    example_thresholds.

Definition inverted_rain_rules : Rules :=
  single_crop "maize"
    {| ideal_ph := (55 # 10, 7)%Q; base_npk := (120, 60, 40)%Q;
       notes := None |}
    {| low_rainfall_mm := 1200; high_rainfall_mm := 400;
       low_n := 30; low_p := 20; low_k := 25 |}.

(** *** What one call computes

    The definitions below describe the outcome of a call without the heap;
    [recommend_run] proves that [recommend] computes exactly this. *)

(** The value that [adjust] returns, as one expression. *)
Definition severity (soil_value low_thr : Q) : Q :=
  clamp ((low_thr - soil_value) / py_max low_thr (1 # 1000000)) 0 1.

Definition adjusted (base soil_value low_thr : Q) : Z :=
  if Qltb soil_value low_thr then
    py_round (base * (1 + (3 # 10) * severity soil_value low_thr))
  else py_round base.

Definition ph_message (soil_ph : Q) (crop_key : string) (c : CropRule) : string :=
  if Qltb soil_ph (ideal_ph c).1 then ph_low_msg soil_ph crop_key
  else if Qltb (ideal_ph c).2 soil_ph then ph_high_msg soil_ph crop_key
  else ph_ok_msg soil_ph crop_key.

Definition rain_tip (rainfall_mm : Z) (t : Thresholds) : string :=
  if (rainfall_mm <? low_rainfall_mm t)%Z then rain_low_tip
  else if (high_rainfall_mm t <? rainfall_mm)%Z then rain_high_tip
  else rain_moderate_tip.

Definition warning (low : bool) (msg : string) : list string :=
  if low then [msg] else [].

Definition warnings (n p k : Q) (t : Thresholds) : list string :=
  warning (Qltb n (low_n t)) n_low_msg
    ++ warning (Qltb p (low_p t)) p_low_msg
    ++ warning (Qltb k (low_k t)) k_low_msg.

(** The items that seed [tips]: those of the crop's notes, none when the
    crop has no notes. *)
Definition notes_items (h : heap) (c : CropRule) : list string :=
  from_option (deref h) [] (notes c).

Definition npk (n p k : Q) (c : CropRule) (t : Thresholds) : list Z :=
  [adjusted (base_npk c).1.1 n (low_n t);
   adjusted (base_npk c).1.2 p (low_p t);
   adjusted (base_npk c).2 k (low_k t)].

Definition echo (soil_ph n p k : Q) (rainfall_mm : Z) : Inputs :=
  {| soil_ph := py_round2 soil_ph; soil_n := py_round2 n;
     soil_p := py_round2 p; soil_k := py_round2 k;
     rainfall_mm := rainfall_mm |}.

(** The notes of every crop are list objects of [h]: a reference held by
    the table always points at an existing object. *)
Definition allocated (h : heap) (c : CropRule) : bool :=
  match notes c with
  | Some r => bool_decide (r < length h)
  | None => true
  end.

Definition notes_allocated (rules : Rules) (h : heap) : Prop :=
  map_Forall (fun _ c => allocated h c = true) (crops rules).

(** The rule table reads the same in [h] and in [h']: the notes of every
    crop have the same items. *)
Definition same_table (rules : Rules) (h h' : heap) : Prop :=
  map_Forall (fun _ c => notes_items h c = notes_items h' c) (crops rules).


(** The value a successful call returns, given the references of its two
    lists. *)
Definition result_of (crop : string) (soil_ph n p k : Q) (rainfall_mm : Z)
    (rules : Rules) (c : CropRule) (messages tips : ref) : Result :=
  {| crop := lower (strip crop);
     inputs := echo soil_ph n p k rainfall_mm;
     recommendation := {| npk_estimate := npk n p k c (thresholds rules);
                          explain := explain_text |};
     messages := messages;
     tips := tips |}.

End Advisor.

(** ** The specification's statements that the code does not meet

    Each is written down as the specification words it, to be refuted on a
    concrete input. *)

Module Stated.
Import Num Str Py Advisor.



(** "The rainfall tip is the low one if and only if the rainfall is below
    the low threshold, the high one if and only if it is above the high
    threshold, and the moderate one otherwise." *)
Definition rain_tip_by_thresholds (crop : string) (soil_ph n p k : Q)
    (rainfall_mm : Z) (rules : Rules) (h : heap) : Prop :=
  forall v,
    observe (recommend crop soil_ph n p k rainfall_mm rules h) = inr v ->
    exists c tip,
      crops rules !! lower (strip crop) = Some c
      /\ v_tips v = notes_items h c ++ [tip]
      /\ (tip = rain_low_tip
          <-> (rainfall_mm < low_rainfall_mm (thresholds rules))%Z)
      /\ (tip = rain_high_tip
          <-> (high_rainfall_mm (thresholds rules) < rainfall_mm)%Z)
      /\ (tip = rain_moderate_tip
          <-> (low_rainfall_mm (thresholds rules) <= rainfall_mm
               <= high_rainfall_mm (thresholds rules))%Z).

End Stated.

(** ** Python's numbers: binary64 floats and unbounded integers

    The modules above compute with exact rationals, which is what the
    comparisons of the code do on finite values.  The arithmetic of
    [adjust] is not exact: it is IEEE 754 binary64, the result of each
    operation being the exact result rounded to the nearest double, ties
    to even.  The module below is that arithmetic.  A float is NaN, an
    infinity, or a finite value given by its sign bit (which tells [-0.0]
    from [0.0], and is not read on another value) and its exact rational
    value.  The value of a float that Python holds is a double
    ([is_double]). *)

Module F64.
Import Num.

Inductive float :=
  | NaN
  | Inf (neg : bool)
  | Fin (neg : bool) (q : Q).

(** The integer part of the binary logarithm of a positive rational. *)
Definition ilog2 (q : Q) : Z :=
  let k := (Z.log2 (Qnum q) - Z.log2 (QDen q))%Z in
  if Qle_bool (2 ^ k) q then k else (k - 1)%Z.

(** The exponent of the last place of the doubles around a positive [q]:
    53 bits of precision, and no exponent below that of the subnormals. *)
Definition ulp_exp (q : Q) : Z := Z.max (ilog2 q - 52) (-1074).

(** The nearest multiple of [2 ^ e], ties to the even multiple. *)
Definition grid (e : Z) (q : Q) : Q :=
  (inject_Z (py_round (q / 2 ^ e)) * 2 ^ e)%Q.

Definition rnd_pos (q : Q) : Q := grid (ulp_exp q) q.

(** The nearest double of a rational, before the test for overflow. *)
Definition rnd (q : Q) : Q :=
  match (q ?= 0)%Q with
  | Eq => 0
  | Gt => rnd_pos q
  | Lt => - rnd_pos (- q)
  end%Q.

(** The least magnitude that is not a finite double. *)
Definition huge : Q := (2 ^ 1024)%Q.

(** The float for an exact result [q]: its nearest double, an infinity
    when that is out of range.  [zneg] is the sign bit of an exact zero. *)
Definition of_exact (zneg : bool) (q : Q) : float :=
  let r := Qred (rnd q) in
  if Qle_bool huge (Qabs r) then Inf (Qltb q 0)
  else Fin (if Qeq_bool q 0 then zneg else Qltb q 0) r.

(** A literal of the source text, such as [0.30]. *)
Definition lit (q : Q) : float := of_exact false q.

Definition signbit (x : float) : bool :=
  match x with
  | NaN => false
  | Inf s => s
  | Fin s q => if Qeq_bool q 0 then s else Qltb q 0
  end.

Definition is_zero (x : float) : bool :=
  match x with
  | Fin _ q => Qeq_bool q 0
  | _ => false
  end.

Definition fneg (x : float) : float :=
  match x with
  | NaN => NaN
  | Inf s => Inf (negb s)
  | Fin _ q => Fin (negb (signbit x)) (Qred (- q))
  end.

(** [x + y] *)
Definition fadd (x y : float) : float :=
  match x, y with
  | NaN, _ | _, NaN => NaN
  | Inf s, Inf t => if Bool.eqb s t then Inf s else NaN
  | Inf s, Fin _ _ => Inf s
  | Fin _ _, Inf t => Inf t
  | Fin _ a, Fin _ b => of_exact (signbit x && signbit y) (a + b)
  end.

(** [x - y] *)
Definition fsub (x y : float) : float := fadd x (fneg y).

(** [x * y] *)
Definition fmul (x y : float) : float :=
  match x, y with
  | NaN, _ | _, NaN => NaN
  | Inf s, Inf t => Inf (xorb s t)
  | Inf s, Fin _ _ => if is_zero y then NaN else Inf (xorb s (signbit y))
  | Fin _ _, Inf t => if is_zero x then NaN else Inf (xorb (signbit x) t)
  | Fin _ a, Fin _ b => of_exact (xorb (signbit x) (signbit y)) (a * b)
  end.

(** The quotient [x / y] of IEEE 754 for a divisor that is not zero. *)
Definition fdiv (x y : float) : float :=
  match x, y with
  | NaN, _ | _, NaN => NaN
  | Inf _, Inf _ => NaN
  | Inf s, Fin _ _ => Inf (xorb s (signbit y))
  | Fin _ _, Inf t => Fin (xorb (signbit x) t) 0
  | Fin _ a, Fin _ b => of_exact (xorb (signbit x) (signbit y)) (a / b)
  end.

(** The order of the floats; NaN compares with nothing. *)
Definition fcmp (x y : float) : option comparison :=
  match x, y with
  | NaN, _ | _, NaN => None
  | Inf s, Inf t =>
      Some (if s then (if t then Eq else Lt) else (if t then Gt else Eq))
  | Inf s, Fin _ _ => Some (if s then Lt else Gt)
  | Fin _ _, Inf t => Some (if t then Gt else Lt)
  | Fin _ a, Fin _ b => Some (a ?= b)%Q
  end.

(** The value of a finite float; 0 stands in for the others. *)
Definition value (x : float) : Q :=
  match x with
  | Fin _ q => q
  | _ => 0
  end.

(** [x < y] and [x <= y] *)
Definition flt (x y : float) : bool :=
  match fcmp x y with Some Lt => true | _ => false end.

Definition fle (x y : float) : bool :=
  match fcmp x y with Some Lt | Some Eq => true | _ => false end.

(** The finite floats that are doubles: values that rounding leaves as
    they are.  Every float that Python holds is one. *)
Definition is_double (x : float) : bool :=
  match x with
  | Fin _ q => Qeq_bool (rnd q) q && Qltb (Qabs q) huge
  | _ => true
  end.

(** [round(x, 2)] on a float: the decimal with two places nearest to the
    exact value, ties to even, and then the double nearest to it. *)
Definition round2 (x : float) : float :=
  match x with
  | Fin _ q =>
      if Qeq_bool q 0 then x
      else of_exact (signbit x) (inject_Z (py_round (q * 100)) / 100)
  | _ => x
  end.

(** The format [{x:.1f}] of a float. *)
Definition format_1f (x : float) : string :=
  match x with
  | NaN => "nan"
  | Inf false => "inf"
  | Inf true => "-inf"
  | Fin s q => if Qeq_bool q 0 && s then "-0.0" else Str.format_1f q
  end.

(** The float of a value of the standard library's specification of
    binary64, to compare the operations above with that specification. *)
Definition of_spec (x : spec_float) : float :=
  match x with
  | S754_zero s => Fin s 0
  | S754_infinity s => Inf s
  | S754_nan => NaN
  | S754_finite s m e =>
      Fin s (Qred ((if s then -1 else 1) * inject_Z (Z.pos m) * 2 ^ e))
  end.

(** Two floats that are the same double. *)
Definition same (x y : float) : bool :=
  match x, y with
  | NaN, NaN => true
  | Inf s, Inf t => Bool.eqb s t
  | Fin _ a, Fin _ b => Bool.eqb (signbit x) (signbit y) && Qeq_bool a b
  | _, _ => false
  end.

End F64.

(** ** [recommend] over Python's numbers *)

Module Advisor64.
Import Num Str Py F64.

(** A number of Python, as [json.load] gives the numbers of the rule
    table: an [int] of any size or a [float]. *)
Inductive num :=
  | Int (z : Z)
  | Float (f : float).

(** [float(z)], the conversion that arithmetic between an [int] and a
    [float] applies to the [int]: the nearest double, and an
    [OverflowError] when that is out of range. *)
Definition of_int (z : Z) : exc + float :=
  let r := Qred (rnd (inject_Z z)) in
  if Qle_bool huge (Qabs r) then
    inl (Exc OverflowError "int too large to convert to float")
  else inr (Fin (z <? 0)%Z r).

Definition to_float (a : num) : exc + float :=
  match a with
  | Int z => of_int z
  | Float f => inr f
  end.

(** The comparison of a float with a number: Python compares a float and
    an [int] by their exact values, without converting the [int]. *)
Definition cmp_num (x : float) (a : num) : option comparison :=
  match a with
  | Float y => fcmp x y
  | Int z => fcmp x (Fin false (inject_Z z))
  end.

(** [x < a] and [x > a] *)
Definition lt_num (x : float) (a : num) : bool :=
  match cmp_num x a with Some Lt => true | _ => false end.

Definition gt_num (x : float) (a : num) : bool :=
  match cmp_num x a with Some Gt => true | _ => false end.

(** The builtin [max(a, b)] on a number and a float: the first argument
    unless the second is strictly greater. *)
Definition max_num (a : num) (b : float) : num :=
  if gt_num b a then Float b else a.

(** The builtins [min(a, b)] and [max(a, b)] on two floats. *)
Definition py_min (a b : float) : float := if flt b a then b else a.
Definition py_max (a b : float) : float := if flt a b then b else a.

(** [def clamp(x, lo, hi): return max(lo, min(hi, x))] *)
Definition clamp (x lo hi : float) : float := py_max lo (py_min hi x).

(** [round(x)] on a float. *)
Definition round_float (x : float) : exc + Z :=
  match x with
  | NaN => inl (Exc ValueError "cannot convert float NaN to integer")
  | Inf _ => inl (Exc OverflowError "cannot convert float infinity to integer")
  | Fin _ q => inr (py_round q)
  end.

(** [round(a)] on a number: an [int] is returned as it is. *)
Definition round_num (a : num) : exc + Z :=
  match a with
  | Int z => inr z
  | Float f => round_float f
  end.

(** [a / d] for a float and a number. *)
Definition truediv (a : float) (d : num) : exc + float :=
  match to_float d with
  | inl e => inl e
  | inr df =>
      if is_zero df then inl (Exc ZeroDivisionError "float division by zero")
      else inr (fdiv a df)
  end.

(** The literals of [adjust]. *)
Definition zero : float := Fin false 0.
Definition one : float := Fin false 1.
Definition three_tenths : float := lit (3 # 10).
Definition millionth : float := lit (1 # 1000000).

(** The nested function [adjust] of [recommend].  [low_thr - soil_value]
    and [base * ...] convert an [int] operand to a float first; [int] of
    the [int] that [round] returns changes nothing. *)
Definition adjust (base : num) (soil_value : float) (low_thr : num) : exc + Z :=
  if lt_num soil_value low_thr then
    match to_float low_thr with
    | inl e => inl e
    | inr t =>
        match truediv (fsub t soil_value) (max_num low_thr millionth) with
        | inl e => inl e
        | inr d =>
            let severity := clamp d zero one in
            let factor := fadd one (fmul three_tenths severity) in
            match to_float base with
            | inl e => inl e
            | inr b => round_float (fmul b factor)
            end
        end
    end
  else round_num base.

(** One entry of [rules["crops"]], [rules["thresholds"]] and the rule
    table, as in [Advisor], with the numbers that JSON gives. *)
Record CropRule := {
  ideal_ph : num * num;
  base_npk : num * num * num;
  notes : option ref
}.

Record Thresholds := {
  low_rainfall_mm : Z;
  high_rainfall_mm : Z;
  low_n : num;
  low_p : num;
  low_k : num
}.

Record Rules := {
  crops : gmap string CropRule;
  thresholds : Thresholds
}.

(** [result["inputs"]] *)
Record Inputs := {
  soil_ph : float;
  soil_n : float;
  soil_p : float;
  soil_k : float;
  rainfall_mm : Z
}.

(** The dict that [recommend] returns. *)
Record Result := {
  crop : string;
  inputs : Inputs;
  recommendation : Advisor.Recommendation;
  messages : ref;
  tips : ref
}.

Definition ph_low_msg (soil_ph : float) (crop_key : string) : string :=
  "Soil pH (" +:+ format_1f soil_ph +:+ ") is LOW for " +:+ crop_key
    +:+ ". Consider liming (after soil test).".

Definition ph_high_msg (soil_ph : float) (crop_key : string) : string :=
  "Soil pH (" +:+ format_1f soil_ph +:+ ") is HIGH for " +:+ crop_key
    +:+ ". Consider organic matter / sulfur guidance (after soil test).".

Definition ph_ok_msg (soil_ph : float) (crop_key : string) : string :=
  "Soil pH (" +:+ format_1f soil_ph +:+ ") is within ideal range for "
    +:+ crop_key +:+ ".".

(** [recommend(crop, soil_ph, n, p, k, rainfall_mm, rules)] *)
Definition recommend (crop : string) (soil_ph n p k : float) (rainfall_mm : Z)
    (rules : Rules) : M Result :=
  let crop_key := lower (strip crop) in
  let crops := crops rules in
  if negb (Advisor.contains crops crop_key) then
    raise (Exc ValueError
             (Advisor.unknown_crop_msg crop (Advisor.keys crops)))
  else
    let* c := eval (Advisor.getitem crops crop_key) in
    let '(ideal_low, ideal_high) := ideal_ph c in
    let '(baseN, baseP, baseK) := base_npk c in
    let t := thresholds rules in
    let* messages := new_list [] in
    let* empty := new_list [] in
    let* tips := list_of (default empty (notes c)) in
    do (if lt_num soil_ph ideal_low then
          append messages (ph_low_msg soil_ph crop_key)
        else if gt_num soil_ph ideal_high then
          append messages (ph_high_msg soil_ph crop_key)
        else
          append messages (ph_ok_msg soil_ph crop_key)) in
    do (if (rainfall_mm <? low_rainfall_mm t)%Z then
          append tips Advisor.rain_low_tip
        else if (high_rainfall_mm t <? rainfall_mm)%Z then
          append tips Advisor.rain_high_tip
        else
          append tips Advisor.rain_moderate_tip) in
    let* recN := eval (adjust baseN n (low_n t)) in
    let* recP := eval (adjust baseP p (low_p t)) in
    let* recK := eval (adjust baseK k (low_k t)) in
    do (if lt_num n (low_n t) then append messages Advisor.n_low_msg
        else ret tt) in
    do (if lt_num p (low_p t) then append messages Advisor.p_low_msg
        else ret tt) in
    do (if lt_num k (low_k t) then append messages Advisor.k_low_msg
        else ret tt) in
    ret {| crop := crop_key;
           inputs := {| soil_ph := round2 soil_ph;
                        soil_n := round2 n;
                        soil_p := round2 p;
                        soil_k := round2 k;
                        rainfall_mm := rainfall_mm |};
           recommendation :=
             {| Advisor.npk_estimate := [recN; recP; recK];
                Advisor.explain := Advisor.explain_text |};
           messages := messages;
           tips := tips |}.

(** What a caller reads from a result: the two lists by their items. *)
Record ResultValue := {
  v_crop : string;
  v_inputs : Inputs;
  v_recommendation : Advisor.Recommendation;
  v_messages : list string;
  v_tips : list string
}.

Definition read_result (h : heap) (r : Result) : ResultValue :=
  {| v_crop := crop r;
     v_inputs := inputs r;
     v_recommendation := recommendation r;
     v_messages := deref h (messages r);
     v_tips := deref h (tips r) |}.

(** The outcome of a call as a caller observes it. *)
Definition observe (run : (exc + Result) * heap) : exc + ResultValue :=
  match run with
  | (inl e, _) => inl e
  | (inr r, h) => inr (read_result h r)
  end.

(** *** What one call computes *)

Definition ph_message (soil_ph : float) (crop_key : string) (c : CropRule) : string :=
  if lt_num soil_ph (ideal_ph c).1 then ph_low_msg soil_ph crop_key
  else if gt_num soil_ph (ideal_ph c).2 then ph_high_msg soil_ph crop_key
  else ph_ok_msg soil_ph crop_key.

Definition rain_tip (rainfall_mm : Z) (t : Thresholds) : string :=
  if (rainfall_mm <? low_rainfall_mm t)%Z then Advisor.rain_low_tip
  else if (high_rainfall_mm t <? rainfall_mm)%Z then Advisor.rain_high_tip
  else Advisor.rain_moderate_tip.

Definition warnings (n p k : float) (t : Thresholds) : list string :=
  Advisor.warning (lt_num n (low_n t)) Advisor.n_low_msg
    ++ Advisor.warning (lt_num p (low_p t)) Advisor.p_low_msg
    ++ Advisor.warning (lt_num k (low_k t)) Advisor.k_low_msg.

Definition notes_items (h : heap) (c : CropRule) : list string :=
  from_option (deref h) [] (notes c).

(** The three calls of [adjust], in their order: the first that raises
    ends the call of [recommend]. *)
Definition estimates (n p k : float) (c : CropRule) (t : Thresholds) :
    exc + list Z :=
  match adjust (base_npk c).1.1 n (low_n t) with
  | inl e => inl e
  | inr recN =>
      match adjust (base_npk c).1.2 p (low_p t) with
      | inl e => inl e
      | inr recP =>
          match adjust (base_npk c).2 k (low_k t) with
          | inl e => inl e
          | inr recK => inr [recN; recP; recK]
          end
      end
  end.

Definition echo (soil_ph n p k : float) (rainfall_mm : Z) : Inputs :=
  {| soil_ph := round2 soil_ph; soil_n := round2 n;
     soil_p := round2 p; soil_k := round2 k;
     rainfall_mm := rainfall_mm |}.

(** What a caller observes of a call on a crop [c] of the table. *)
Definition outcome (crop : string) (soil_ph n p k : float) (rainfall_mm : Z)
    (rules : Rules) (h : heap) (c : CropRule) : exc + ResultValue :=
  match estimates n p k c (thresholds rules) with
  | inl e => inl e
  | inr npk =>
      inr {| v_crop := lower (strip crop);
             v_inputs := echo soil_ph n p k rainfall_mm;
             v_recommendation :=
               {| Advisor.npk_estimate := npk;
                  Advisor.explain := Advisor.explain_text |};
             v_messages := ph_message soil_ph (lower (strip crop)) c
                             :: warnings n p k (thresholds rules);
             v_tips := notes_items h c
                         ++ [rain_tip rainfall_mm (thresholds rules)] |}
  end.

(** *** Numbers and tables for the examples *)

Definition example_thresholds : Thresholds :=
  {| low_rainfall_mm := 400; high_rainfall_mm := 1200;
     low_n := Int 30; low_p := Int 20; low_k := Int 25 |}.

Definition single_crop (key : string) (c : CropRule) (t : Thresholds) : Rules :=
  {| crops := {[ key := c ]}; thresholds := t |}.

(** The maize rule of the specification's example. *)
Definition maize : CropRule :=
  {| ideal_ph := (Float (lit (55 # 10)), Float (lit 7));
     base_npk := (Int 120, Int 60, Int 40);
     notes := None |}.

Definition example_rules : Rules := single_crop "maize" maize example_thresholds.

(** Tables that are well-formed but unusual: a base that is not a whole
    number, a negative base, an integer base beyond the 53 bits of a
    double, and an ideal pH range given upper bound first. *)
Definition with_base (baseN : num) : Rules :=
  single_crop "maize"
    {| ideal_ph := ideal_ph maize; base_npk := (baseN, Int 60, Int 40);
       notes := None |}
    example_thresholds.

Definition fractional_base_rules : Rules := with_base (Float (lit (1204 # 10))).

Definition negative_base_rules : Rules := with_base (Int (-100)).

Definition wide_base_rules : Rules :=
  single_crop "maize"
    {| ideal_ph := ideal_ph maize;
       base_npk := (Int 9007199254740993, Int 60, Int 40);
       notes := None |}
    {| low_rainfall_mm := 400; high_rainfall_mm := 1200;
       low_n := Float one; low_p := Int 20; low_k := Int 25 |}.

Definition inverted_ph_rules : Rules :=
  single_crop "maize"
    {| ideal_ph := (Float (lit 7), Float (lit (55 # 10)));
       base_npk := (Int 120, Int 60, Int 40);
       notes := None |}
    example_thresholds.

(** A number that its conversion to a float leaves as it is: a double,
    or an [int] that is one. *)
Definition representable (a : num) : bool :=
  match a with
  | Int z => Qeq_bool (rnd (inject_Z z)) (inject_Z z)
  | Float f => is_double f
  end.

(** [0 <= a], as Python compares. *)
Definition nonneg (a : num) : bool :=
  match a with
  | Int z => (0 <=? z)%Z
  | Float f => fle zero f
  end.

End Advisor64.

(** ** The specification's statements about numbers

    First the adjustment as the specification words it, to be compared
    with [adjust]; then the statements that the code does not meet, each
    written down as the specification words it, to be refuted on a
    concrete input. *)

Module Stated64.
Import Num Str Py F64 Advisor64.

(** The specification describes the severity as the quotient confined to
    the range from 0 to 1, and the divisor as the threshold unless that is
    below [1e-6]. *)

(** A float confined to the range from [0.0] to [1.0]. *)
Definition confined (q : float) : float :=
  if fle q (Fin false 0) then Fin false 0
  else if fle (Fin false 1) q then Fin false 1
  else q.

(** The severity for a quotient: a quotient that is not a number counts
    as the full severity. *)
Definition severity_of (q : float) : float :=
  match q with
  | NaN => Fin false 1
  | _ => confined q
  end.

(** The divisor for a threshold that has been converted to a float: the
    threshold, or [1e-6] when the threshold is below that. *)
Definition divisor (t : float) : float :=
  if flt t (lit (1 # 1000000)) then lit (1 # 1000000) else t.

(** The boosted value, [round(base * (1.0 + 0.30 * severity))]: what the
    specification gives for a soil value below the threshold. *)
Definition boosted (base : num) (soil_value : float) (low_thr : num) : exc + Z :=
  match to_float low_thr with
  | inl e => inl e
  | inr t =>
      let quotient := fdiv (fsub t soil_value) (divisor t) in
      let factor :=
        fadd (Fin false 1) (fmul (lit (3 # 10)) (severity_of quotient)) in
      match to_float base with
      | inl e => inl e
      | inr b => round_float (fmul b factor)
      end
  end.

(** The integer [a] is greater than or equal to the number [b]. *)
Definition at_least (a : Z) (b : num) : Prop :=
  match b with
  | Int z => (z <= a)%Z
  | Float (Fin _ q) => (q <= inject_Z a)%Q
  | Float (Inf neg) => neg = true
  | Float NaN => False
  end.

(** "For every successful call, each component of the estimate is greater
    than or equal to the corresponding base value." *)
Definition estimate_ge_base (crop : string) (soil_ph n p k : float)
    (rainfall_mm : Z) (rules : Rules) (h : heap) : Prop :=
  forall v,
    observe (recommend crop soil_ph n p k rainfall_mm rules h) = inr v ->
    exists c recN recP recK,
      crops rules !! lower (strip crop) = Some c
      /\ Advisor.npk_estimate (v_recommendation v) = [recN; recP; recK]
      /\ at_least recN (base_npk c).1.1
      /\ at_least recP (base_npk c).1.2
      /\ at_least recK (base_npk c).2.

(** "For all soilValue1 <= soilValue2, the adjusted output for soilValue1
    is greater than or equal to the adjusted output for soilValue2." *)
Definition adjust_antitone (base low_thr : num) (soil1 soil2 : float) : Prop :=
  fle soil1 soil2 = true ->
  exists a1 a2,
    adjust base soil1 low_thr = inr a1
    /\ adjust base soil2 low_thr = inr a2
    /\ (a2 <= a1)%Z.


End Stated64.

(** ** The history file

    [save_history] works on the file system.  The store below holds what
    the function can tell apart: which paths exist, which of them are
    directories, and for each file whether [json.load] reads a document
    from it or raises.  A document that [json.dump] wrote in full is the
    one that [json.load] reads back.  The process may read, create and
    write below its working directory, and the device does not fail.

    Whether [json.dump] raises on a document is a matter of the
    interpreter: of its codec for the strings, of its recursion limit for
    the nesting, of its limit on the digits of an [int].  It is a
    parameter of the model, [dump_error]. *)

Module History.

(** What [json.load] returns. *)
#[local] Unset Elimination Schemes.
Inductive json :=
  | JNull
  | JBool (b : bool)
  | JInt (z : Z)
  | JFloat (f : F64.float)
  | JStr (s : string)
  | JList (l : list json)
  | JDict (d : list (string * json)).
#[local] Set Elimination Schemes.

(** A file, by what [json.load] makes of it: it raises on a file that
    cannot be decoded or parsed, such as an empty or a truncated one, or
    it returns a document. *)
Inductive content :=
  | Unreadable
  | Doc (v : json).

(** What a path leads to. *)
Inductive node :=
  | Dir
  | File (c : content).

(** The paths that exist. *)
Abbreviation store := (gmap string node).

(** The exceptions that leave [save_history]. *)
Inductive error :=
  | FileExistsError
  | IsADirectoryError
  | UnicodeEncodeError
  | RecursionError
  | DigitLimitError.

Definition OUTDIR : string := "outputs".

(** [os.path.join(OUTDIR, "history.json")] *)
Definition HISTORY_PATH : string := OUTDIR +:+ "/" +:+ "history.json".

(** [os.makedirs(OUTDIR, exist_ok=True)]: nothing to do when the directory
    exists, and a [FileExistsError] when the path is a regular file. *)
Definition ensure_outdir (s : store) : error + store :=
  match s !! OUTDIR with
  | Some (File _) => inl FileExistsError
  | _ => inr (<[OUTDIR := Dir]> s)
  end.

(** [os.path.exists(path)] *)
Definition path_exists (s : store) (path : string) : bool :=
  bool_decide (is_Some (s !! path)).

(** [with open(path, "r") as f: history = json.load(f)] under
    [try: ... except Exception]: the document, or nothing when [open]
    or [json.load] raised. *)
Definition try_load (s : store) (path : string) : option json :=
  match s !! path with
  | Some (File (Doc v)) => Some v
  | _ => None
  end.

(** A string holds a surrogate code point: in the bytes of a string that
    is the three-byte form, 0xED followed by a byte from 0xA0 to 0xBF.
    Python's [str] can hold one, UTF-8 cannot encode it. *)
Fixpoint has_surrogate (s : string) : bool :=
  match s with
  | String a ((String b _) as s') =>
      ((Ascii.N_of_ascii a =? 237)%N
       && (160 <=? Ascii.N_of_ascii b)%N && (Ascii.N_of_ascii b <=? 191)%N)
      || has_surrogate s'
  | _ => false
  end.

(** Every string of the document, the keys included, can be encoded. *)
Fixpoint encodable (v : json) : bool :=
  match v with
  | JStr s => negb (has_surrogate s)
  | JList l => forallb encodable l
  | JDict d => forallb (fun kv => negb (has_surrogate kv.1) && encodable kv.2) d
  | _ => true
  end.

(** [json.dump] in an interpreter whose limits are out of reach: it raises
    on the strings that cannot be encoded, and on nothing else. *)
Definition codec_error (v : json) : option error :=
  if encodable v then None else Some UnicodeEncodeError.

Section Dump.

(** The exception that [json.dump] raises on a document, if any. *)
Variable dump_error : json -> option error.

(** [with open(path, "w") as f: json.dump(v, f, ...)], for a path in an
    existing directory: [open] raises on a directory; on a file, or on a
    path that does not exist, it leaves an empty file before [json.dump]
    writes, so that a [json.dump] that raises leaves a file that is empty
    or cut short. *)
Definition write_json (v : json) (path : string) (s : store) :
    (error + unit) * store :=
  match s !! path with
  | Some Dir => (inl IsADirectoryError, s)
  | _ =>
      match dump_error v with
      | Some e => (inl e, <[path := File Unreadable]> s)
      | None => (inr tt, <[path := File (Doc v)]> s)
      end
  end.

(** [save_history(entry)] *)
Definition save_history (entry : json) (s : store) : (error + unit) * store :=
  match ensure_outdir s with
  | inl e => (inl e, s)
  | inr s =>
      let history : list json := [] in
      let history :=
        if path_exists s HISTORY_PATH then
          match try_load s HISTORY_PATH with
          | Some (JList loaded) => loaded
          | Some _ => []
          | None => []
          end
        else history in
      let history := history ++ [entry] in
      write_json (JList history) HISTORY_PATH s
  end.

End Dump.

(** The entries that a later run finds in the history file: those of the
    JSON array in it, none when the file is missing, unreadable or holds
    another kind of document. *)
Definition stored_history (s : store) : list json :=
  match s !! HISTORY_PATH with
  | Some (File (Doc (JList l))) => l
  | _ => []
  end.

(** A store with a history of one entry whose string holds the surrogate
    U+D800. *)
Definition surrogate_entry : json :=
  JStr (String (Ascii.ascii_of_N 237)
          (String (Ascii.ascii_of_N 160) (String (Ascii.ascii_of_N 128) ""))).

Definition surrogate_store : store :=
  <[HISTORY_PATH := File (Doc (JList [surrogate_entry]))]>
    (<[OUTDIR := Dir]> ∅).

End History.

(** ** Facts about the numeric builtins *)

Module NumFacts.
Import Num.

Lemma Qltb_lt a b : Qltb a b = true <-> (a < b)%Q.
Proof. unfold Qltb, Qlt. apply Z.ltb_lt. Qed.

Lemma Qltb_ge a b : Qltb a b = false <-> (b <= a)%Q.
Proof. unfold Qltb, Qle. apply Z.ltb_ge. Qed.

Lemma Qltb_irrefl a b : (a == b)%Q -> Qltb a b = false.
Proof. intros E. apply Qltb_ge. rewrite E. apply Qle_refl. Qed.

Lemma py_max_ge_l a b : (a <= py_max a b)%Q.
Proof.
  unfold py_max. destruct (Qltb a b) eqn:E.
  - apply Qlt_le_weak, Qltb_lt, E.
  - apply Qle_refl.
Qed.

Lemma py_max_ge_r a b : (b <= py_max a b)%Q.
Proof.
  unfold py_max. destruct (Qltb a b) eqn:E.
  - apply Qle_refl.
  - apply Qltb_ge, E.
Qed.

Lemma py_min_le_l a b : (py_min a b <= a)%Q.
Proof.
  unfold py_min. destruct (Qltb b a) eqn:E.
  - apply Qlt_le_weak, Qltb_lt, E.
  - apply Qle_refl.
Qed.

Lemma py_max_mono_r a b b' : (b <= b')%Q -> (py_max a b <= py_max a b')%Q.
Proof.
  intros H. unfold py_max.
  destruct (Qltb a b) eqn:E, (Qltb a b') eqn:E';
    rewrite ?Qltb_lt, ?Qltb_ge in *; lra.
Qed.

Lemma py_min_mono_r a b b' : (b <= b')%Q -> (py_min a b <= py_min a b')%Q.
Proof.
  intros H. unfold py_min.
  destruct (Qltb b a) eqn:E, (Qltb b' a) eqn:E';
    rewrite ?Qltb_lt, ?Qltb_ge in *; lra.
Qed.

Lemma clamp_mono x x' lo hi : (x <= x')%Q -> (clamp x lo hi <= clamp x' lo hi)%Q.
Proof. intros H. unfold clamp. by apply py_max_mono_r, py_min_mono_r. Qed.

Lemma clamp_ge_lo x lo hi : (lo <= clamp x lo hi)%Q.
Proof. apply py_max_ge_l. Qed.

(** [round] stays within one half of its argument. *)
Lemma py_round_near x :
  (inject_Z (py_round x) - (1 # 2) <= x <= inject_Z (py_round x) + (1 # 2))%Q.
Proof.
  unfold py_round.
  pose proof (Qfloor_le x) as Hlo. pose proof (Qlt_floor x) as Hhi.
  rewrite inject_Z_plus in Hhi. change (inject_Z 1) with 1%Q in Hhi.
  destruct (Qcompare_spec (x - inject_Z (Qfloor x)) (1 # 2)) as [E|E|E].
  - destruct (Z.even (Qfloor x)); rewrite ?inject_Z_plus;
      change (inject_Z 1) with 1%Q; lra.
  - lra.
  - rewrite inject_Z_plus. change (inject_Z 1) with 1%Q. lra.
Qed.

Lemma py_round_comp x y : (x == y)%Q -> py_round x = py_round y.
Proof.
  intros E. unfold py_round. rewrite (Qfloor_comp _ _ E).
  assert (E' : (x - inject_Z (Qfloor y) == y - inject_Z (Qfloor y))%Q)
    by (rewrite E; reflexivity).
  by rewrite (Qcompare_comp _ _ E' _ _ (Qeq_refl (1 # 2))).
Qed.

(** [round] is monotone. *)
Lemma py_round_mono x y : (x <= y)%Q -> (py_round x <= py_round y)%Z.
Proof.
  intros H.
  destruct (Z_le_gt_dec (py_round x) (py_round y)) as [|G]; [done|].
  pose proof (py_round_near x) as [Hx _].
  pose proof (py_round_near y) as [_ Hy].
  assert (G' : (inject_Z (py_round y) + 1 <= inject_Z (py_round x))%Q).
  { rewrite <- (inject_Z_plus _ 1). rewrite <- Zle_Qle. lia. }
  assert (E : (x == y)%Q) by lra.
  rewrite (py_round_comp _ _ E). lia.
Qed.

(** On an integer, [round] is the identity. *)
Lemma py_round_Z z : py_round (inject_Z z) = z.
Proof.
  unfold py_round. rewrite Qfloor_Z.
  destruct (Qcompare_spec (inject_Z z - inject_Z z) (1 # 2)) as [E|E|E];
    [lra|done|lra].
Qed.

End NumFacts.

(** ** Running [recommend] *)

Module Run.
Import Num Str Py Advisor NumFacts.

(** The divisor of [adjust] is at least [1e-6]. *)
Lemma divisor_pos low_thr : (0 < py_max low_thr (1 # 1000000))%Q.
Proof.
  pose proof (py_max_ge_r low_thr (1 # 1000000)) as H.
  eapply Qlt_le_trans; [|exact H]. reflexivity.
Qed.

Lemma truediv_divisor a low_thr :
  truediv a (py_max low_thr (1 # 1000000))
  = inr (a / py_max low_thr (1 # 1000000))%Q.
Proof.
  unfold truediv.
  destruct (Qeq_bool (py_max low_thr (1 # 1000000)) 0) eqn:E; [|done].
  apply Qeq_bool_eq in E. pose proof (divisor_pos low_thr) as H.
  rewrite E in H. by apply Qlt_irrefl in H.
Qed.

(** [adjust] never raises and returns the adjusted value. *)
Lemma adjust_adjusted base soil_value low_thr :
  adjust base soil_value low_thr = inr (adjusted base soil_value low_thr).
Proof.
  unfold adjust, adjusted, severity.
  destruct (Qltb soil_value low_thr); [|done].
  by rewrite truediv_divisor.
Qed.

Lemma contains_true {V} (d : gmap string V) key v :
  d !! key = Some v -> contains d key = true /\ getitem d key = inr v.
Proof.
  intros E. unfold contains, getitem. rewrite E. split; [|done].
  apply bool_decide_eq_true. by eexists.
Qed.

Lemma contains_false {V} (d : gmap string V) key :
  d !! key = None -> contains d key = false.
Proof.
  intros E. unfold contains. rewrite E.
  apply bool_decide_eq_false. by intros [? ?].
Qed.

(** Reading in the frame that the call puts on top of the caller's heap,
    and below it. *)
Lemma deref_frame (h fr : heap) i :
  deref (h ++ fr) (length h + i) = default [] (fr !! i).
Proof.
  unfold deref. rewrite lookup_app_r by lia.
  by replace (length h + i - length h) with i by lia.
Qed.

Lemma deref_below (h fr : heap) r : r < length h -> deref (h ++ fr) r = deref h r.
Proof. intros H. unfold deref. by rewrite lookup_app_l. Qed.

Lemma deref_above (h : heap) r : length h <= r -> deref h r = [].
Proof. intros H. unfold deref. by rewrite lookup_ge_None_2. Qed.

(** The default of [c.get("notes", [])] is a fresh empty list, so the seed
    of [tips] is read from the caller's heap alone. *)
Lemma seed_items (h : heap) (c : CropRule) :
  deref (h ++ [[]; []]) (default (length h + 1) (notes c)) = notes_items h c.
Proof.
  unfold notes_items. destruct (notes c) as [r|]; simpl.
  - destruct (decide (r < length h)) as [Hr|Hr].
    + by rewrite deref_below.
    + rewrite (deref_above h) by lia.
      replace r with (length h + (r - length h)) by lia.
      rewrite deref_frame. by destruct (r - length h) as [|[|[|?]]].
  - by rewrite deref_frame.
Qed.

(** One step of each kind of statement. *)
Lemma bind_new_list {B} l (f : ref -> M B) (h : heap) :
  (let* r := new_list l in f r) h = f (length h) (h ++ [l]).
Proof. done. Qed.

Lemma bind_list_of {B} r0 (f : ref -> M B) (h : heap) :
  (let* r := list_of r0 in f r) h = f (length h) (h ++ [deref h r0]).
Proof. done. Qed.

Lemma bind_eval {A B} (a : A) (f : A -> M B) (h : heap) :
  (let* x := eval (inr a) in f x) h = f a h.
Proof. done. Qed.

Lemma insert_deref (h : heap) r : <[r := deref h r]> h = h.
Proof.
  unfold deref. destruct (h !! r) eqn:E; simpl.
  - by apply list_insert_id.
  - by apply list_insert_ge, lookup_ge_None.
Qed.

Lemma do_append {B} r s (f : M B) (h : heap) :
  (do append r s in f) h = f (<[r := deref h r ++ [s]]> h).
Proof. done. Qed.

Lemma do_append3 {B} (b1 b2 : bool) r s1 s2 s3 (f : M B) (h : heap) :
  (do (if b1 then append r s1 else if b2 then append r s2 else append r s3)
   in f) h
  = (do append r (if b1 then s1 else if b2 then s2 else s3) in f) h.
Proof. by destruct b1, b2. Qed.

Lemma do_warning {B} (b : bool) r s (f : M B) (h : heap) :
  (do (if b then append r s else ret tt) in f) h
  = f (<[r := deref h r ++ warning b s]> h).
Proof.
  destruct b; [done|]. simpl. by rewrite app_nil_r, insert_deref.
Qed.

Lemma frame_update (h fr : heap) r i l :
  r = length h + i ->
  <[r := deref (h ++ fr) r ++ l]> (h ++ fr)
  = h ++ <[i := default [] (fr !! i) ++ l]> fr.
Proof. intros ->. by rewrite deref_frame, insert_app_r. Qed.

(** A call on a known crop returns, and it leaves the caller's heap [h] as
    it was, with three new list objects on top of it: [messages], the
    default of [get] and [tips]. *)
Lemma recommend_run crop soil_ph n p k rainfall_mm rules (h : heap) c :
  crops rules !! lower (strip crop) = Some c ->
  recommend crop soil_ph n p k rainfall_mm rules h
  = (inr (result_of crop soil_ph n p k rainfall_mm rules c
            (length h) (length h + 2)),
     h ++ [ph_message soil_ph (lower (strip crop)) c
             :: warnings n p k (thresholds rules);
           [];
           notes_items h c ++ [rain_tip rainfall_mm (thresholds rules)]]).
Proof.
  intros Hc. unfold recommend.
  destruct (contains_true _ _ _ Hc) as [-> Hget]. simpl.
  unfold bind at 1. unfold eval at 1. rewrite Hget.
  unfold result_of, npk, ph_message, warnings.
  destruct (ideal_ph c) as [ideal_low ideal_high].
  destruct (base_npk c) as [[baseN baseP] baseK]. simpl.
  rewrite !bind_new_list, bind_list_of.
  rewrite <- !app_assoc. simpl app.
  rewrite !length_app. simpl length. rewrite seed_items.
  rewrite do_append3, do_append.
  rewrite (frame_update h _ _ 0) by lia. simpl.
  rewrite do_append3, do_append.
  rewrite (frame_update h _ _ 2) by lia. simpl.
  rewrite !adjust_adjusted, !bind_eval.
  rewrite do_warning, (frame_update h _ _ 0) by lia. simpl.
  rewrite do_warning, (frame_update h _ _ 0) by lia. simpl.
  rewrite do_warning, (frame_update h _ _ 0) by lia. simpl.
  unfold ret, rain_tip, echo. by rewrite <- !app_assoc.
Qed.

(** A call on an unknown crop raises before it allocates anything. *)
Lemma recommend_unknown crop soil_ph n p k rainfall_mm rules (h : heap) :
  crops rules !! lower (strip crop) = None ->
  recommend crop soil_ph n p k rainfall_mm rules h
  = (inl (Exc ValueError (unknown_crop_msg crop (keys (crops rules)))), h).
Proof.
  intros Hc. unfold recommend. by rewrite (contains_false _ _ Hc).
Qed.

(** What the caller observes after a call on a known crop. *)
Lemma recommend_observe crop soil_ph n p k rainfall_mm rules (h : heap) c :
  crops rules !! lower (strip crop) = Some c ->
  observe (recommend crop soil_ph n p k rainfall_mm rules h)
  = inr {| v_crop := lower (strip crop);
           v_inputs := echo soil_ph n p k rainfall_mm;
           v_recommendation :=
             {| npk_estimate := npk n p k c (thresholds rules);
                explain := explain_text |};
           v_messages := ph_message soil_ph (lower (strip crop)) c
                           :: warnings n p k (thresholds rules);
           v_tips := notes_items h c
                       ++ [rain_tip rainfall_mm (thresholds rules)] |}.
Proof.
  intros Hc. rewrite (recommend_run _ _ _ _ _ _ _ _ _ Hc).
  unfold observe, read_result, result_of. simpl.
  pose proof (deref_frame h) as F.
  rewrite <- (Nat.add_0_r (length h)) at 1. by rewrite !F.
Qed.

(** The example of the specification: maize on a soil with pH 5.0, N 20,
    P 50, K 45 and 500 mm of rain gets the LOW pH message, the nitrogen
    warning, an N estimate above the base of 120, and the moderate rainfall
    tip after the two notes. *)
Example recommend_maize_example :
  observe (recommend "maize" 5 20 50 45 500 example_rules example_heap)
  = inr {| v_crop := "maize";
           v_inputs := echo 5 20 50 45 500;
           v_recommendation := {| npk_estimate := [132; 60; 40]%Z;
                                  explain := explain_text |};
           v_messages :=
             ["Soil pH (5.0) is LOW for maize. Consider liming (after soil test).";
              n_low_msg];
           v_tips := ["Plant at onset of rains."; "Rotate with legumes.";
                      rain_moderate_tip] |}.
Proof. by vm_compute. Qed.

End Run.

(** ** The crop lookup *)

Module Lookup.
Import Num Str Py Advisor NumFacts Run.


(** A call succeeds exactly on the crops of the table. *)
Lemma observe_success crop soil_ph n p k rainfall_mm rules (h : heap) v :
  observe (recommend crop soil_ph n p k rainfall_mm rules h) = inr v ->
  exists c, crops rules !! lower (strip crop) = Some c.
Proof.
  destruct (crops rules !! lower (strip crop)) as [c|] eqn:Hc; [by eexists|].
  by rewrite (recommend_unknown _ _ _ _ _ _ _ _ Hc).
Qed.

End Lookup.

Import Num Str Py Advisor NumFacts Run Lookup.



(** C5.  When the soil value equals the threshold, [adjust] returns
    [round(base)]: the test for a boost is the strict [<]. *)
Theorem adjust_at_threshold base soil_value low_thr :
  (soil_value == low_thr)%Q ->
  adjust base soil_value low_thr = inr (py_round base).
Proof.
  intros E. unfold adjust. by rewrite (Qltb_irrefl _ _ E).
Qed.

Lemma adjust_at_threshold_witness : adjust 120 (60 # 2) 30 = inr (py_round 120).
Proof.
  apply (adjust_at_threshold 120 (60 # 2) 30). reflexivity.
Defined.

(** ** Facts about the strings *)

Module StrFacts.
Import Num Str Py Advisor NumFacts.

Lemma prefix_app p s : prefix p (p +:+ s) = true.
Proof.
  induction p as [|a p IH]; [done|].
  change (String a p +:+ s) with (String a (p +:+ s)). simpl.
  by rewrite Ascii.eqb_refl.
Qed.







Lemma ph_message_is_ph soil_ph crop_key c :
  is_ph_message (ph_message soil_ph crop_key c) = true.
Proof.
  unfold ph_message, ph_low_msg, ph_high_msg, ph_ok_msg, is_ph_message.
  repeat case_match; apply prefix_app.
Qed.

Lemma warnings_not_ph n p k t :
  Forall (fun m => is_ph_message m = false) (warnings n p k t).
Proof.
  unfold warnings, warning.
  repeat case_match; repeat constructor.
Qed.

Lemma rain_tip_cases rainfall_mm t :
  (rain_tip rainfall_mm t = rain_low_tip
   <-> (rainfall_mm < low_rainfall_mm t)%Z)
  /\ (rain_tip rainfall_mm t = rain_high_tip
      <-> (high_rainfall_mm t < rainfall_mm)%Z
          /\ ~ (rainfall_mm < low_rainfall_mm t)%Z)
  /\ (rain_tip rainfall_mm t = rain_moderate_tip
      <-> (low_rainfall_mm t <= rainfall_mm <= high_rainfall_mm t)%Z).
Proof.
  unfold rain_tip.
  destruct (rainfall_mm <? low_rainfall_mm t)%Z eqn:E1;
    [|destruct (high_rainfall_mm t <? rainfall_mm)%Z eqn:E2];
    rewrite ?Z.ltb_lt, ?Z.ltb_ge in *;
    (split; [|split]); split; try done; intros; try split; try lia.
Qed.

Lemma warning_cases (low : bool) msg :
  (warning low msg = [msg] /\ low = true)
  \/ (warning low msg = [] /\ low = false).
Proof. destruct low; auto. Qed.

End StrFacts.

Import StrFacts.

(** C7.  For every successful call, the messages after the leading pH
    message are the nutrient warnings, between none and three of them, in
    the order N, P, K: the N warning is there if and only if [n < low_n],
    the P warning if and only if [p < low_p], the K warning if and only if
    [k < low_k]. *)
Theorem nutrient_warnings_in_order crop soil_ph n p k rainfall_mm rules
    (h : heap) v :
  observe (recommend crop soil_ph n p k rainfall_mm rules h) = inr v ->
  exists ph wN wP wK,
    v_messages v = ph :: wN ++ wP ++ wK
    /\ is_ph_message ph = true
    /\ ((wN = [n_low_msg] /\ (n < low_n (thresholds rules))%Q)
        \/ (wN = [] /\ ~ (n < low_n (thresholds rules))%Q))
    /\ ((wP = [p_low_msg] /\ (p < low_p (thresholds rules))%Q)
        \/ (wP = [] /\ ~ (p < low_p (thresholds rules))%Q))
    /\ ((wK = [k_low_msg] /\ (k < low_k (thresholds rules))%Q)
        \/ (wK = [] /\ ~ (k < low_k (thresholds rules))%Q))
    /\ (n_low_msg ∈ wN ++ wP ++ wK <-> (n < low_n (thresholds rules))%Q)
    /\ (p_low_msg ∈ wN ++ wP ++ wK <-> (p < low_p (thresholds rules))%Q)
    /\ (k_low_msg ∈ wN ++ wP ++ wK <-> (k < low_k (thresholds rules))%Q)
    /\ length (wN ++ wP ++ wK) <= 3.
Proof.
  intros Hv. destruct (observe_success _ _ _ _ _ _ _ _ _ Hv) as [c Hc].
  rewrite (recommend_observe _ _ _ _ _ _ _ _ _ Hc) in Hv.
  injection Hv as <-. simpl.
  exists (ph_message soil_ph (lower (strip crop)) c),
    (warning (Qltb n (low_n (thresholds rules))) n_low_msg),
    (warning (Qltb p (low_p (thresholds rules))) p_low_msg),
    (warning (Qltb k (low_k (thresholds rules))) k_low_msg).
  split; [done|]. split; [apply ph_message_is_ph|].
  destruct (Qltb n (low_n (thresholds rules))) eqn:En,
    (Qltb p (low_p (thresholds rules))) eqn:Ep,
    (Qltb k (low_k (thresholds rules))) eqn:Ek;
    rewrite ?Qltb_lt, ?Qltb_ge in *; simpl;
    rewrite ?elem_of_cons, ?elem_of_nil;
    repeat split;
    try (left; split; [done|lra]); try (right; split; [done|lra]);
    try lia; try lra; try tauto;
    intros; repeat match goal with
                   | H : _ \/ _ |- _ => destruct H
                   end; try done; try lra.
Qed.

Lemma nutrient_warnings_in_order_witness :
  exists ph wN wP wK,
    [ph_low_msg 5 "maize"; n_low_msg] = ph :: wN ++ wP ++ wK
    /\ is_ph_message ph = true
    /\ ((wN = [n_low_msg] /\ (20 < low_n (thresholds example_rules))%Q)
        \/ (wN = [] /\ ~ (20 < low_n (thresholds example_rules))%Q))
    /\ ((wP = [p_low_msg] /\ (50 < low_p (thresholds example_rules))%Q)
        \/ (wP = [] /\ ~ (50 < low_p (thresholds example_rules))%Q))
    /\ ((wK = [k_low_msg] /\ (45 < low_k (thresholds example_rules))%Q)
        \/ (wK = [] /\ ~ (45 < low_k (thresholds example_rules))%Q))
    /\ (n_low_msg ∈ wN ++ wP ++ wK
        <-> (20 < low_n (thresholds example_rules))%Q)
    /\ (p_low_msg ∈ wN ++ wP ++ wK
        <-> (50 < low_p (thresholds example_rules))%Q)
    /\ (k_low_msg ∈ wN ++ wP ++ wK
        <-> (45 < low_k (thresholds example_rules))%Q)
    /\ length (wN ++ wP ++ wK) <= 3.
Proof.
  apply (nutrient_warnings_in_order " Maize " 5 20 50 45 500 example_rules
           example_heap
           {| v_crop := "maize";
              v_inputs := echo 5 20 50 45 500;
              v_recommendation := {| npk_estimate := [132; 60; 40]%Z;
                                     explain := explain_text |};
              v_messages := [ph_low_msg 5 "maize"; n_low_msg];
              v_tips := ["Plant at onset of rains."; "Rotate with legumes.";
                         rain_moderate_tip] |}).
  vm_compute. reflexivity.
Defined.

(** C8, as amended.  For every successful call, the tips are the items of
    the crop rule's notes, in their order, followed by exactly one rainfall
    tip: the low-rainfall tip if and only if the rainfall is below the low
    threshold, the high-rainfall tip if and only if the rainfall is above
    the high threshold and not below the low one (the low test is made
    first), and the moderate tip if and only if the rainfall lies between
    the two thresholds, both inclusive. *)
Theorem tips_notes_then_rain crop soil_ph n p k rainfall_mm rules (h : heap) v :
  observe (recommend crop soil_ph n p k rainfall_mm rules h) = inr v ->
  exists c tip,
    crops rules !! lower (strip crop) = Some c
    /\ v_tips v = notes_items h c ++ [tip]
    /\ (tip = rain_low_tip
        <-> (rainfall_mm < low_rainfall_mm (thresholds rules))%Z)
    /\ (tip = rain_high_tip
        <-> (high_rainfall_mm (thresholds rules) < rainfall_mm)%Z
            /\ ~ (rainfall_mm < low_rainfall_mm (thresholds rules))%Z)
    /\ (tip = rain_moderate_tip
        <-> (low_rainfall_mm (thresholds rules) <= rainfall_mm
             <= high_rainfall_mm (thresholds rules))%Z).
Proof.
  intros Hv. destruct (observe_success _ _ _ _ _ _ _ _ _ Hv) as [c Hc].
  rewrite (recommend_observe _ _ _ _ _ _ _ _ _ Hc) in Hv.
  injection Hv as <-. simpl.
  exists c, (rain_tip rainfall_mm (thresholds rules)).
  split; [done|]. split; [done|]. apply rain_tip_cases.
Qed.

Lemma tips_notes_then_rain_witness :
  exists c tip,
    crops example_rules !! lower (strip " Maize ") = Some c
    /\ ["Plant at onset of rains."; "Rotate with legumes."; rain_moderate_tip]
       = notes_items example_heap c ++ [tip]
    /\ (tip = rain_low_tip
        <-> (500 < low_rainfall_mm (thresholds example_rules))%Z)
    /\ (tip = rain_high_tip
        <-> (high_rainfall_mm (thresholds example_rules) < 500)%Z
            /\ ~ (500 < low_rainfall_mm (thresholds example_rules))%Z)
    /\ (tip = rain_moderate_tip
        <-> (low_rainfall_mm (thresholds example_rules) <= 500
             <= high_rainfall_mm (thresholds example_rules))%Z).
Proof.
  apply (tips_notes_then_rain " Maize " 5 20 50 45 500 example_rules
           example_heap
           {| v_crop := "maize";
              v_inputs := echo 5 20 50 45 500;
              v_recommendation := {| npk_estimate := [132; 60; 40]%Z;
                                     explain := explain_text |};
              v_messages := [ph_low_msg 5 "maize"; n_low_msg];
              v_tips := ["Plant at onset of rains."; "Rotate with legumes.";
                         rain_moderate_tip] |}).
  vm_compute. reflexivity.
Defined.

(** The statement of the specification fails on the code when the table
    gives its rainfall thresholds upper bound first: with a low threshold
    of 1200 and a high threshold of 400, a rainfall of 500 is above 400,
    yet the tip is the low-rainfall one, since 500 is below 1200 and that
    test comes first. *)
Lemma rain_tip_not_by_thresholds :
  ~ Stated.rain_tip_by_thresholds "maize" 6 40 50 45 500 inverted_rain_rules [].
Proof.
  intros H. destruct (H _ eq_refl) as (c & tip & Hc & Ht & _ & Hhigh & _).
  vm_compute in Hc. injection Hc as <-.
  vm_compute in Ht. injection Ht as <-.
  destruct Hhigh as [_ Hhigh]. by specialize (Hhigh eq_refl).
Qed.

(** ** Calls and the caller's heap *)

Module Frame.
Import Num Str Py Advisor NumFacts Run.

(** A call only adds list objects on top of the caller's heap. *)
Lemma recommend_frame crop soil_ph n p k rainfall_mm rules (h : heap) :
  exists fr, (recommend crop soil_ph n p k rainfall_mm rules h).2 = h ++ fr.
Proof.
  destruct (crops rules !! lower (strip crop)) as [c|] eqn:Hc.
  - rewrite (recommend_run _ _ _ _ _ _ _ _ _ Hc). by eexists.
  - rewrite (recommend_unknown _ _ _ _ _ _ _ _ Hc). exists []. simpl.
    by rewrite app_nil_r.
Qed.

Lemma notes_items_frame (h fr : heap) c :
  allocated h c = true -> notes_items (h ++ fr) c = notes_items h c.
Proof.
  unfold allocated, notes_items. destruct (notes c) as [r|]; [|done].
  intros Hr%bool_decide_eq_true. simpl. by apply deref_below.
Qed.

Lemma allocated_frame (h fr : heap) c :
  allocated h c = true -> allocated (h ++ fr) c = true.
Proof.
  unfold allocated. destruct (notes c) as [r|]; [|done].
  intros Hr%bool_decide_eq_true. apply bool_decide_eq_true.
  rewrite length_app. lia.
Qed.

(** A call leaves the rule table as it found it. *)
Lemma recommend_keeps_table crop soil_ph n p k rainfall_mm rules (h : heap) :
  notes_allocated rules h ->
  same_table rules h (recommend crop soil_ph n p k rainfall_mm rules h).2
  /\ notes_allocated rules (recommend crop soil_ph n p k rainfall_mm rules h).2.
Proof.
  intros Hwf.
  destruct (recommend_frame crop soil_ph n p k rainfall_mm rules h) as [fr ->].
  split; intros key c Hc.
  - symmetry. apply notes_items_frame. by apply (Hwf key).
  - apply allocated_frame. by apply (Hwf key).
Qed.

(** Calls with the same arguments on heaps in which the table reads the
    same are observed alike. *)
Lemma recommend_same_table crop soil_ph n p k rainfall_mm rules (h h' : heap) :
  same_table rules h h' ->
  observe (recommend crop soil_ph n p k rainfall_mm rules h)
  = observe (recommend crop soil_ph n p k rainfall_mm rules h').
Proof.
  intros Hsame.
  destruct (crops rules !! lower (strip crop)) as [c|] eqn:Hc.
  - rewrite !(recommend_observe _ _ _ _ _ _ _ _ _ Hc).
    by rewrite (Hsame _ _ Hc).
  - by rewrite !(recommend_unknown _ _ _ _ _ _ _ _ Hc).
Qed.

End Frame.

Import Frame.

(** C9.  [recommend] is deterministic.  Take a heap [h] that holds the
    notes of the rule table, and any heap [h'] in which the table reads the
    same.  Two calls with the same crop key, soil values and rainfall, one
    on [h] and one on [h'], are observed alike: both raise the same error,
    or both return results equal in every field (crop, inputs, estimate,
    explanation, messages, tips).  The call on [h] leaves the table as it
    found it, so the same call made again right after it is observed as
    the first was. *)
Theorem recommend_deterministic crop soil_ph n p k rainfall_mm rules
    (h h' : heap) :
  notes_allocated rules h ->
  same_table rules h h' ->
  observe (recommend crop soil_ph n p k rainfall_mm rules h)
  = observe (recommend crop soil_ph n p k rainfall_mm rules h')
  /\ same_table rules h (recommend crop soil_ph n p k rainfall_mm rules h).2
  /\ observe (recommend crop soil_ph n p k rainfall_mm rules
                (recommend crop soil_ph n p k rainfall_mm rules h).2)
     = observe (recommend crop soil_ph n p k rainfall_mm rules h).
Proof.
  intros Hwf Hsame.
  destruct (recommend_keeps_table crop soil_ph n p k rainfall_mm rules h Hwf)
    as [Hkept _].
  split; [by apply recommend_same_table|]. split; [done|].
  symmetry. by apply recommend_same_table.
Qed.

Lemma recommend_deterministic_witness :
  observe (recommend " Maize " 5 20 50 45 500 example_rules example_heap)
  = observe (recommend " Maize " 5 20 50 45 500 example_rules
               (example_heap ++ [["Soil pH"]; []]))
  /\ same_table example_rules example_heap
       (recommend " Maize " 5 20 50 45 500 example_rules example_heap).2
  /\ observe (recommend " Maize " 5 20 50 45 500 example_rules
                (recommend " Maize " 5 20 50 45 500 example_rules
                   example_heap).2)
     = observe (recommend " Maize " 5 20 50 45 500 example_rules
                  example_heap).
Proof.
  apply (recommend_deterministic " Maize " 5 20 50 45 500 example_rules
           example_heap (example_heap ++ [["Soil pH"]; []])).
  - apply (bool_decide_unpack _). vm_compute. exact I.
  - apply (bool_decide_unpack _). vm_compute. exact I.
Defined.



(** ** Tables with ordered bounds

    On thresholds whose low rainfall is not above the high one, the order
    of the tests does not show: the statement of the specification about
    the rainfall tip holds as it is worded. *)

Lemma rain_tip_by_thresholds_ordered crop soil_ph n p k rainfall_mm rules
    (h : heap) :
  (low_rainfall_mm (thresholds rules) <= high_rainfall_mm (thresholds rules))%Z ->
  Stated.rain_tip_by_thresholds crop soil_ph n p k rainfall_mm rules h.
Proof.
  intros Hord v Hv.
  destruct (observe_success _ _ _ _ _ _ _ _ _ Hv) as [c Hc].
  rewrite (recommend_observe _ _ _ _ _ _ _ _ _ Hc) in Hv.
  injection Hv as <-. simpl.
  exists c, (rain_tip rainfall_mm (thresholds rules)).
  destruct (rain_tip_cases rainfall_mm (thresholds rules)) as (L & H & K).
  repeat (split; [done|]). split; [|done].
  rewrite H. split; [intros [? _]; done|]. intros Hhi. split; [done|lia].
Qed.

(** ** More about [clamp] *)

(** X1.  With ordered bounds, [clamp] returns a value between them, and a
    value already between them comes back numerically unchanged. *)
Theorem clamp_within x lo hi :
  (lo <= hi)%Q ->
  (lo <= clamp x lo hi <= hi)%Q
  /\ ((lo <= x <= hi)%Q -> (clamp x lo hi == x)%Q).
Proof.
  intros Hord. unfold clamp, py_max, py_min.
  destruct (Qltb x hi) eqn:E1;
    [destruct (Qltb lo x) eqn:E2 | destruct (Qltb lo hi) eqn:E2];
    rewrite ?Qltb_lt, ?Qltb_ge in *; repeat split; intros; lra.
Qed.

Lemma clamp_within_witness :
  (0 <= clamp (1 # 3) 0 1 <= 1)%Q
  /\ ((0 <= 1 # 3 <= 1)%Q -> (clamp (1 # 3) 0 1 == 1 # 3)%Q).
Proof. apply (clamp_within (1 # 3) 0 1). by vm_compute. Defined.

(** X2.  With bounds given upper first, [clamp] returns its lower-bound
    argument whatever the value. *)
Theorem clamp_inverted_bounds x lo hi : (hi < lo)%Q -> clamp x lo hi = lo.
Proof.
  intros Hinv. unfold clamp, py_max.
  pose proof (py_min_le_l hi x) as Hmin.
  assert (Qltb lo (py_min hi x) = false) as -> by (apply Qltb_ge; lra).
  done.
Qed.

Lemma clamp_inverted_bounds_witness : clamp 5 1 0 = 1%Q.
Proof. apply (clamp_inverted_bounds 5 1 0). reflexivity. Defined.

(** ** The normal form of a crop key *)

Module Normal.
Import Num Str Py Advisor.

Lemma app_cons a s t : String a s +:+ t = String a (s +:+ t).
Proof. done. Qed.

Lemma app_empty_r s : s +:+ "" = s.
Proof. induction s as [|a s IH]; [done|]. by rewrite app_cons, IH. Qed.

Lemma app_assoc_str s t u : (s +:+ t) +:+ u = s +:+ (t +:+ u).
Proof. induction s as [|a s IH]; [done|]. by rewrite !app_cons, IH. Qed.

Lemma rev_app_app s t : String.rev_app s t = String.rev s +:+ t.
Proof.
  revert t. induction s as [|a s IH]; intros t; [done|].
  unfold String.rev. simpl. rewrite (IH (String a t)), (IH (String a "")).
  by rewrite app_assoc_str.
Qed.

Lemma rev_cons a s : String.rev (String a s) = String.rev s +:+ String a "".
Proof. unfold String.rev at 1. simpl. apply rev_app_app. Qed.

Lemma rev_app_distr s t : String.rev (s +:+ t) = String.rev t +:+ String.rev s.
Proof.
  induction s as [|a s IH]; [by rewrite app_empty_r|].
  by rewrite app_cons, !rev_cons, IH, app_assoc_str.
Qed.

Lemma rev_involutive s : String.rev (String.rev s) = s.
Proof.
  induction s as [|a s IH]; [done|].
  by rewrite rev_cons, rev_app_distr, IH.
Qed.

Lemma lstrip_head s c t : lstrip s = String c t -> is_space c = false.
Proof.
  induction s as [|a s IH]; [done|]. simpl.
  destruct (is_space a) eqn:E; [done|]. by intros [= <- _].
Qed.

Lemma lstrip_fixed c t : is_space c = false -> lstrip (String c t) = String c t.
Proof. intros E. simpl. by rewrite E. Qed.

Lemma lstrip_idem s : lstrip (lstrip s) = lstrip s.
Proof.
  destruct (lstrip s) as [|c t] eqn:E; [done|].
  apply lstrip_fixed. by eapply lstrip_head.
Qed.

(** [lstrip] removes a prefix. *)
Lemma lstrip_suffix s : exists ws, s = ws +:+ lstrip s.
Proof.
  induction s as [|a s [ws IH]]; [by exists ""|]. simpl.
  destruct (is_space a).
  - exists (String a ws). by rewrite app_cons, <- IH.
  - by exists "".
Qed.

Lemma rstrip_strip s : rstrip (strip s) = strip s.
Proof.
  unfold strip, rstrip. by rewrite rev_involutive, lstrip_idem.
Qed.

Lemma lstrip_strip s : lstrip (strip s) = strip s.
Proof.
  unfold strip, rstrip.
  destruct (lstrip_suffix (String.rev (lstrip s))) as [ws Hws].
  set (u := lstrip (String.rev (lstrip s))) in *.
  destruct (String.rev u) as [|c w] eqn:Eu; [done|].
  apply lstrip_fixed.
  apply (f_equal String.rev) in Hws.
  rewrite rev_involutive, rev_app_distr, Eu, app_cons in Hws.
  apply (lstrip_head (lstrip s) c (w +:+ String.rev ws)).
  by rewrite lstrip_idem.
Qed.

Lemma strip_idem s : strip (strip s) = strip s.
Proof.
  unfold strip at 1. by rewrite lstrip_strip, rstrip_strip.
Qed.

Lemma is_space_lower_char c : is_space (lower_char c) = is_space c.
Proof. by destruct c as [[] [] [] [] [] [] [] []]. Qed.

Lemma lower_char_idem c : lower_char (lower_char c) = lower_char c.
Proof. by destruct c as [[] [] [] [] [] [] [] []]. Qed.

Lemma lower_idem s : lower (lower s) = lower s.
Proof.
  induction s as [|a s IH]; [done|]. simpl. by rewrite lower_char_idem, IH.
Qed.

Lemma lstrip_lower s : lstrip (lower s) = lower (lstrip s).
Proof.
  induction s as [|a s IH]; [done|]. simpl.
  rewrite is_space_lower_char. by destruct (is_space a).
Qed.

Lemma lower_rev_app s t :
  lower (String.rev_app s t) = String.rev_app (lower s) (lower t).
Proof.
  revert t. induction s as [|a s IH]; intros t; [done|]. simpl.
  by rewrite IH.
Qed.

Lemma lower_rev s : lower (String.rev s) = String.rev (lower s).
Proof. apply lower_rev_app. Qed.

Lemma strip_lower s : strip (lower s) = lower (strip s).
Proof.
  unfold strip, rstrip.
  by rewrite lstrip_lower, <- lower_rev, lstrip_lower, lower_rev.
Qed.

(** Trimming and lowercasing a key that was trimmed and lowercased changes
    nothing. *)
Lemma crop_key_normal_form s : lower (strip (lower (strip s))) = lower (strip s).
Proof. by rewrite strip_lower, lower_idem, strip_idem. Qed.

End Normal.

Import Normal.

(** ** More about [recommend] *)

(** X5.  For a crop argument of the ASCII range, the crop name of a
    result selects the same rule again: a call with the [crop] field of a
    returned result in place of the crop argument, all else equal, returns
    the same result. *)
Theorem result_crop_round_trip crop soil_ph n p k rainfall_mm rules (h : heap) v :
  is_ascii crop = true ->
  observe (recommend crop soil_ph n p k rainfall_mm rules h) = inr v ->
  observe (recommend (v_crop v) soil_ph n p k rainfall_mm rules h) = inr v.
Proof.
  intros _ Hv. destruct (observe_success _ _ _ _ _ _ _ _ _ Hv) as [c Hc].
  rewrite (recommend_observe _ _ _ _ _ _ _ _ _ Hc) in Hv.
  injection Hv as <-. simpl.
  assert (crops rules !! lower (strip (lower (strip crop))) = Some c) as Hc'
    by by rewrite crop_key_normal_form.
  rewrite (recommend_observe _ _ _ _ _ _ _ _ _ Hc').
  by rewrite crop_key_normal_form.
Qed.

Lemma result_crop_round_trip_witness :
  observe (recommend "maize" 5 20 50 45 500 example_rules example_heap)
  = inr {| v_crop := "maize";
           v_inputs := echo 5 20 50 45 500;
           v_recommendation := {| npk_estimate := [132; 60; 40]%Z;
                                  explain := explain_text |};
           v_messages := [ph_low_msg 5 "maize"; n_low_msg];
           v_tips := ["Plant at onset of rains."; "Rotate with legumes.";
                      rain_moderate_tip] |}.
Proof.
  apply (result_crop_round_trip "  MAIZE " 5 20 50 45 500 example_rules
           example_heap
           {| v_crop := "maize";
              v_inputs := echo 5 20 50 45 500;
              v_recommendation := {| npk_estimate := [132; 60; 40]%Z;
                                     explain := explain_text |};
              v_messages := [ph_low_msg 5 "maize"; n_low_msg];
              v_tips := ["Plant at onset of rains."; "Rotate with legumes.";
                         rain_moderate_tip] |});
    vm_compute; reflexivity.
Defined.

(** X6.  A rule stored under a key that is not in normal form (a key with
    an uppercase ASCII letter, or with whitespace at either end) is out of
    reach of every crop argument of the ASCII range: the key that the
    call looks up differs from it, and so does the crop name of every
    result. *)
Theorem unnormalized_key_unreachable key crop soil_ph n p k rainfall_mm rules
    (h : heap) :
  is_ascii crop = true ->
  lower (strip key) <> key ->
  lower (strip crop) <> key
  /\ forall v,
       observe (recommend crop soil_ph n p k rainfall_mm rules h) = inr v ->
       v_crop v <> key.
Proof.
  intros _ Hkey.
  assert (lower (strip crop) <> key) as Hne.
  { intros <-. by rewrite crop_key_normal_form in Hkey. }
  split; [done|]. intros v Hv.
  destruct (observe_success _ _ _ _ _ _ _ _ _ Hv) as [c Hc].
  rewrite (recommend_observe _ _ _ _ _ _ _ _ _ Hc) in Hv.
  by injection Hv as <-.
Qed.

Lemma unnormalized_key_unreachable_witness :
  lower (strip "  MAIZE ") <> "Maize"
  /\ forall v,
       observe (recommend "  MAIZE " 5 20 50 45 500 example_rules
                  example_heap) = inr v ->
       v_crop v <> "Maize".
Proof.
  apply (unnormalized_key_unreachable "Maize" "  MAIZE " 5 20 50 45 500
           example_rules example_heap).
  - vm_compute. reflexivity.
  - by vm_compute.
Defined.

(** X7.  The estimate and the warnings agree: a component of the estimate
    that differs from its rounded base comes with the warning for that
    nutrient, and when the messages hold the pH message alone the estimate
    is the three rounded bases. *)
Theorem boost_comes_with_warning crop soil_ph n p k rainfall_mm rules
    (h : heap) v :
  observe (recommend crop soil_ph n p k rainfall_mm rules h) = inr v ->
  exists c recN recP recK,
    crops rules !! lower (strip crop) = Some c
    /\ npk_estimate (v_recommendation v) = [recN; recP; recK]
    /\ (recN <> py_round (base_npk c).1.1 -> n_low_msg ∈ v_messages v)
    /\ (recP <> py_round (base_npk c).1.2 -> p_low_msg ∈ v_messages v)
    /\ (recK <> py_round (base_npk c).2 -> k_low_msg ∈ v_messages v)
    /\ (length (v_messages v) = 1 ->
        recN = py_round (base_npk c).1.1
        /\ recP = py_round (base_npk c).1.2
        /\ recK = py_round (base_npk c).2).
Proof.
  intros Hv. destruct (observe_success _ _ _ _ _ _ _ _ _ Hv) as [c Hc].
  rewrite (recommend_observe _ _ _ _ _ _ _ _ _ Hc) in Hv.
  injection Hv as <-. exists c. do 3 eexists.
  split; [done|]. split; [reflexivity|]. simpl.
  unfold warnings, adjusted.
  destruct (Qltb n (low_n (thresholds rules))),
    (Qltb p (low_p (thresholds rules))),
    (Qltb k (low_k (thresholds rules))); simpl;
    repeat split; try done; intros; set_solver.
Qed.

Lemma boost_comes_with_warning_witness :
  exists c recN recP recK,
    crops example_rules !! lower (strip " Maize ") = Some c
    /\ [132; 60; 40]%Z = [recN; recP; recK]
    /\ (recN <> py_round (base_npk c).1.1
        -> n_low_msg ∈ [ph_low_msg 5 "maize"; n_low_msg])
    /\ (recP <> py_round (base_npk c).1.2
        -> p_low_msg ∈ [ph_low_msg 5 "maize"; n_low_msg])
    /\ (recK <> py_round (base_npk c).2
        -> k_low_msg ∈ [ph_low_msg 5 "maize"; n_low_msg])
    /\ (length [ph_low_msg 5 "maize"; n_low_msg] = 1 ->
        recN = py_round (base_npk c).1.1
        /\ recP = py_round (base_npk c).1.2
        /\ recK = py_round (base_npk c).2).
Proof.
  apply (boost_comes_with_warning " Maize " 5 20 50 45 500 example_rules
           example_heap
           {| v_crop := "maize";
              v_inputs := echo 5 20 50 45 500;
              v_recommendation := {| npk_estimate := [132; 60; 40]%Z;
                                     explain := explain_text |};
              v_messages := [ph_low_msg 5 "maize"; n_low_msg];
              v_tips := ["Plant at onset of rains."; "Rotate with legumes.";
                         rain_moderate_tip] |}).
  vm_compute. reflexivity.
Defined.

(** X8.  Each part of a result depends on its own inputs only.  Two
    successful calls for the same crop on the same table and heap agree on
    the estimate and on the nutrient warnings when they have the same n, p
    and k, whatever their pH and rainfall; on the tips when they have the
    same rainfall; and on the pH message when they have the same pH. *)
Theorem result_parts_independent crop rules (h : heap)
    soil_ph1 n1 p1 k1 rainfall_mm1 soil_ph2 n2 p2 k2 rainfall_mm2 v1 v2 :
  observe (recommend crop soil_ph1 n1 p1 k1 rainfall_mm1 rules h) = inr v1 ->
  observe (recommend crop soil_ph2 n2 p2 k2 rainfall_mm2 rules h) = inr v2 ->
  ((n1, p1, k1) = (n2, p2, k2) ->
     v_recommendation v1 = v_recommendation v2
     /\ tail (v_messages v1) = tail (v_messages v2))
  /\ (rainfall_mm1 = rainfall_mm2 -> v_tips v1 = v_tips v2)
  /\ (soil_ph1 = soil_ph2 -> head (v_messages v1) = head (v_messages v2)).
Proof.
  intros Hv1 Hv2. destruct (observe_success _ _ _ _ _ _ _ _ _ Hv1) as [c Hc].
  rewrite (recommend_observe _ _ _ _ _ _ _ _ _ Hc) in Hv1.
  rewrite (recommend_observe _ _ _ _ _ _ _ _ _ Hc) in Hv2.
  injection Hv1 as <-. injection Hv2 as <-. simpl.
  split; [|split].
  - by intros [= -> -> ->].
  - by intros ->.
  - by intros ->.
Qed.

Lemma result_parts_independent_witness :
  exists v1 v2,
    ((20, 50, 45)%Q = (20, 50, 45)%Q ->
       v_recommendation v1 = v_recommendation v2
       /\ tail (v_messages v1) = tail (v_messages v2))
    /\ (500%Z = 2000%Z -> v_tips v1 = v_tips v2)
    /\ (5%Q = 8%Q -> head (v_messages v1) = head (v_messages v2)).
Proof.
  do 2 eexists.
  apply (result_parts_independent "maize" example_rules example_heap
           5 20 50 45 500 8 20 50 45 2000); vm_compute; reflexivity.
Defined.

(** Where the two lists of a result live. *)
Lemma result_refs crop soil_ph n p k rainfall_mm rules (h h1 : heap) r :
  recommend crop soil_ph n p k rainfall_mm rules h = (inr r, h1) ->
  messages r = length h /\ tips r = length h + 2
  /\ exists fr, h1 = h ++ fr /\ length fr = 3.
Proof.
  intros Hrun.
  destruct (crops rules !! lower (strip crop)) as [c|] eqn:Hc.
  - rewrite (recommend_run _ _ _ _ _ _ _ _ _ Hc) in Hrun.
    injection Hrun as <- <-. simpl. repeat split. by eexists.
  - by rewrite (recommend_unknown _ _ _ _ _ _ _ _ Hc) in Hrun.
Qed.

(** X9.  The lists of a result are new objects.  After a successful call
    on the heap [h], the references of [messages] and [tips] are distinct
    and point above [h]; every list object of [h], the notes of the rule
    table among them, is as it was; and it stays so when the caller goes on
    to append to the returned [tips] or [messages]. *)
Theorem result_lists_are_fresh crop soil_ph n p k rainfall_mm rules
    (h h' : heap) r :
  recommend crop soil_ph n p k rainfall_mm rules h = (inr r, h') ->
  messages r <> tips r
  /\ length h <= messages r < length h'
  /\ length h <= tips r < length h'
  /\ forall r0, r0 < length h ->
       h' !! r0 = h !! r0
       /\ forall s,
            (append (tips r) s h').2 !! r0 = h !! r0
            /\ (append (messages r) s h').2 !! r0 = h !! r0.
Proof.
  intros Hrun.
  destruct (result_refs _ _ _ _ _ _ _ _ _ _ Hrun) as (-> & -> & fr & -> & Hfr).
  rewrite length_app, Hfr. unfold append. simpl.
  repeat split; try lia.
  - by rewrite lookup_app_l.
  - rewrite list_lookup_insert_ne by lia. by rewrite lookup_app_l.
  - rewrite list_lookup_insert_ne by lia. by rewrite lookup_app_l.
Qed.

Lemma result_lists_are_fresh_witness :
  1 <> 3
  /\ length example_heap <= 1 < 4
  /\ length example_heap <= 3 < 4
  /\ forall r0, r0 < length example_heap ->
       (recommend "maize" 5 20 50 45 500 example_rules example_heap).2 !! r0
       = example_heap !! r0
       /\ forall s,
            (append 3 s
               (recommend "maize" 5 20 50 45 500 example_rules
                  example_heap).2).2 !! r0
            = example_heap !! r0
            /\ (append 1 s
                  (recommend "maize" 5 20 50 45 500 example_rules
                     example_heap).2).2 !! r0
               = example_heap !! r0.
Proof.
  apply (result_lists_are_fresh "maize" 5 20 50 45 500 example_rules
           example_heap
           (recommend "maize" 5 20 50 45 500 example_rules example_heap).2
           (result_of "maize" 5 20 50 45 500 example_rules
              {| ideal_ph := (55 # 10, 7)%Q; base_npk := (120, 60, 40)%Q;
                 notes := Some 0%nat |} 1 3)).
  vm_compute. reflexivity.
Defined.

(** X10.  A returned result is not touched by later calls: after any
    further call, on any table and with any arguments, the caller reads
    from the earlier result what it read before. *)
Theorem earlier_result_survives crop soil_ph n p k rainfall_mm rules
    (h h1 : heap) r1 crop' soil_ph' n' p' k' rainfall_mm' rules' :
  recommend crop soil_ph n p k rainfall_mm rules h = (inr r1, h1) ->
  read_result
    (recommend crop' soil_ph' n' p' k' rainfall_mm' rules' h1).2 r1
  = read_result h1 r1.
Proof.
  intros Hrun.
  destruct (recommend_frame crop' soil_ph' n' p' k' rainfall_mm' rules' h1)
    as [fr' ->].
  destruct (result_refs _ _ _ _ _ _ _ _ _ _ Hrun) as (Hm & Ht & fr & -> & Hfr).
  unfold read_result. rewrite Hm, Ht.
  by rewrite !(deref_below (h ++ fr) fr') by (rewrite length_app; lia).
Qed.

Lemma earlier_result_survives_witness :
  read_result
    (recommend "coffee" 7 0 0 0 100 example_rules
       (recommend "maize" 5 20 50 45 500 example_rules example_heap).2).2
    (result_of "maize" 5 20 50 45 500 example_rules
       {| ideal_ph := (55 # 10, 7)%Q; base_npk := (120, 60, 40)%Q;
          notes := Some 0%nat |} 1 3)
  = read_result
      (recommend "maize" 5 20 50 45 500 example_rules example_heap).2
      (result_of "maize" 5 20 50 45 500 example_rules
         {| ideal_ph := (55 # 10, 7)%Q; base_npk := (120, 60, 40)%Q;
            notes := Some 0%nat |} 1 3).
Proof.
  apply (earlier_result_survives "maize" 5 20 50 45 500 example_rules
           example_heap).
  vm_compute. reflexivity.
Defined.

(** ** Facts about rounding to the nearest double *)

Module F64Facts.
Import Num F64 NumFacts.

Lemma pow2_pos e : (0 < 2 ^ e)%Q.
Proof. by apply Qpower_0_lt. Qed.

Lemma pow2_le e1 e2 : (e1 <= e2)%Z -> (2 ^ e1 <= 2 ^ e2)%Q.
Proof. intros H. by apply Qpower_le_compat_l. Qed.

Lemma pow2_lt_inv e1 e2 : (2 ^ e1 < 2 ^ e2)%Q -> (e1 < e2)%Z.
Proof. intros H. by apply (Qpower_lt_compat_l_inv 2). Qed.

Lemma pow2_plus a b : (2 ^ (a + b) == 2 ^ a * 2 ^ b)%Q.
Proof. by apply Qpower_plus. Qed.

Lemma pow2_succ a : (2 ^ (a + 1) == 2 * 2 ^ a)%Q.
Proof. rewrite pow2_plus. change (2 ^ 1)%Q with 2%Q. ring. Qed.

Lemma pow2_Z a : (0 <= a)%Z -> (2 ^ a == inject_Z (2 ^ a))%Q.
Proof. intros H. by rewrite Zpower_Qpower. Qed.

(** [ilog2 q] is the exponent of the binade of [q]. *)
Lemma ilog2_spec q :
  (0 < q)%Q -> (2 ^ ilog2 q <= q < 2 ^ (ilog2 q + 1))%Q.
Proof.
  intros Hq. destruct q as [n d]. unfold Qlt in Hq. simpl in Hq.
  assert (0 < n)%Z as Hn by lia.
  unfold ilog2. cbn [Qnum Qden].
  set (a := Z.log2 n). set (b := Z.log2 (Z.pos d)).
  pose proof (Z.log2_nonneg n) as Ha0. pose proof (Z.log2_nonneg (Z.pos d)) as Hb0.
  destruct (Z.log2_spec n Hn) as [Ha1 Ha2].
  destruct (Z.log2_spec (Z.pos d) eq_refl) as [Hb1 Hb2].
  fold a in Ha0, Ha1, Ha2. fold b in Hb0, Hb1, Hb2.
  rewrite <- Z.add_1_r in Ha2, Hb2.
  set (A := (2 ^ a)%Q). set (Bq := (2 ^ b)%Q).
  assert (A <= inject_Z n)%Q as HA1.
  { unfold A. rewrite pow2_Z by lia. by rewrite <- Zle_Qle. }
  assert (inject_Z n < 2 * A)%Q as HA2.
  { unfold A. rewrite <- pow2_succ, pow2_Z by lia. by rewrite <- Zlt_Qlt. }
  assert (Bq <= inject_Z (Z.pos d))%Q as HB1.
  { unfold Bq. rewrite pow2_Z by lia. by rewrite <- Zle_Qle. }
  assert (inject_Z (Z.pos d) < 2 * Bq)%Q as HB2.
  { unfold Bq. rewrite <- pow2_succ, pow2_Z by lia. by rewrite <- Zlt_Qlt. }
  assert (0 < Bq)%Q as HBp by apply pow2_pos.
  assert (0 < A)%Q as HAp by apply pow2_pos.
  assert (2 ^ (a - b) * Bq == A)%Q as Hk.
  { unfold A, Bq. rewrite <- pow2_plus. by replace (a - b + b)%Z with a by lia. }
  assert (n # d == inject_Z n / inject_Z (Z.pos d))%Q as Hq' by apply Qmake_Qdiv.
  assert (0 < inject_Z (Z.pos d))%Q as HDp by lra.
  set (N := inject_Z n) in *. set (D := inject_Z (Z.pos d)) in *.
  set (K := (2 ^ (a - b))%Q) in *.
  assert ((n # d) * D == N)%Q as Hmul.
  { rewrite Hq'. field. lra. }
  set (q := n # d) in *.
  assert (0 < K)%Q as HKp by apply pow2_pos.
  destruct (Qle_bool K q) eqn:E.
  - apply Qle_bool_iff in E. split; [done|]. rewrite pow2_succ. fold K.
    nra.
  - assert (q < K)%Q as E'.
    { apply Qnot_le_lt. intros H. apply Qle_bool_iff in H. congruence. }
    replace (a - b - 1 + 1)%Z with (a - b)%Z by lia. fold K. split; [|done].
    assert (2 * 2 ^ (a - b - 1) == K)%Q as Hh.
    { rewrite <- pow2_succ. unfold K.
      by replace (a - b - 1 + 1)%Z with (a - b)%Z by lia. }
    set (K' := (2 ^ (a - b - 1))%Q) in *.
    nra.
Qed.

Lemma ilog2_mono x y : (0 < x)%Q -> (x <= y)%Q -> (ilog2 x <= ilog2 y)%Z.
Proof.
  intros Hx Hxy. destruct (ilog2_spec x Hx) as [H1 _].
  destruct (ilog2_spec y) as [_ H2]; [lra|].
  assert (ilog2 x < ilog2 y + 1)%Z; [|lia].
  apply pow2_lt_inv. lra.
Qed.

Lemma grid_mono e x y : (x <= y)%Q -> (grid e x <= grid e y)%Q.
Proof.
  intros H. unfold grid. pose proof (pow2_pos e) as Hp.
  apply Qmult_le_compat_r; [|lra]. rewrite <- Zle_Qle. apply py_round_mono.
  unfold Qdiv. apply Qmult_le_compat_r; [done|].
  apply Qinv_le_0_compat. lra.
Qed.

(** A multiple of [2 ^ e] is left as it is. *)
Lemma grid_fix e z : (grid e (inject_Z z * 2 ^ e) == inject_Z z * 2 ^ e)%Q.
Proof.
  unfold grid. pose proof (pow2_pos e) as Hp.
  assert (inject_Z z * 2 ^ e / 2 ^ e == inject_Z z)%Q as E by (field; lra).
  by rewrite (py_round_comp _ _ E), py_round_Z.
Qed.

Lemma grid_comp e x y : (x == y)%Q -> (grid e x == grid e y)%Q.
Proof.
  intros E. unfold grid.
  assert (x / 2 ^ e == y / 2 ^ e)%Q as E' by (by rewrite E).
  by rewrite (py_round_comp _ _ E').
Qed.

Lemma ulp_exp_mono x y : (0 < x)%Q -> (x <= y)%Q -> (ulp_exp x <= ulp_exp y)%Z.
Proof.
  intros Hx Hxy. unfold ulp_exp. pose proof (ilog2_mono x y Hx Hxy). lia.
Qed.

(** Rounding is monotone on the positive rationals: within one binade the
    grid is the same, and from one binade to a higher one the power of two
    between them is on both grids. *)
Lemma rnd_pos_mono x y : (0 < x)%Q -> (x <= y)%Q -> (rnd_pos x <= rnd_pos y)%Q.
Proof.
  intros Hx Hxy. unfold rnd_pos.
  pose proof (ulp_exp_mono x y Hx Hxy) as He.
  destruct (Z.eq_dec (ulp_exp x) (ulp_exp y)) as [->|Hne].
  { by apply grid_mono. }
  assert (ulp_exp x < ulp_exp y)%Z as Hlt by lia.
  assert (ulp_exp y = ilog2 y - 52)%Z as Hy by (unfold ulp_exp in *; lia).
  assert (ilog2 x + 1 <= ilog2 y)%Z as Hl by (unfold ulp_exp in *; lia).
  set (B := (2 ^ ilog2 y)%Q).
  destruct (ilog2_spec x Hx) as [_ Hx2].
  destruct (ilog2_spec y) as [Hy1 _]; [lra|].
  assert (x <= B)%Q as HxB.
  { pose proof (pow2_le _ _ Hl). unfold B. lra. }
  assert (B == inject_Z (2 ^ (ilog2 y - ulp_exp x)) * 2 ^ ulp_exp x)%Q as EB1.
  { unfold B. rewrite <- pow2_Z by lia. rewrite <- pow2_plus.
    by replace (ilog2 y - ulp_exp x + ulp_exp x)%Z with (ilog2 y) by lia. }
  assert (B == inject_Z (2 ^ 52) * 2 ^ ulp_exp y)%Q as EB2.
  { unfold B. rewrite <- pow2_Z by lia. rewrite <- pow2_plus.
    by replace (52 + ulp_exp y)%Z with (ilog2 y) by lia. }
  assert (grid (ulp_exp x) B == B)%Q as G1.
  { rewrite (grid_comp _ _ _ EB1), grid_fix. by rewrite <- EB1. }
  assert (grid (ulp_exp y) B == B)%Q as G2.
  { rewrite (grid_comp _ _ _ EB2), grid_fix. by rewrite <- EB2. }
  apply Qle_trans with B.
  - rewrite <- G1. by apply grid_mono.
  - rewrite <- G2. by apply grid_mono.
Qed.

Lemma ilog2_unique q i :
  (0 < q)%Q -> (2 ^ i <= q < 2 ^ (i + 1))%Q -> ilog2 q = i.
Proof.
  intros Hq [H1 H2]. destruct (ilog2_spec q Hq) as [G1 G2].
  assert (i < ilog2 q + 1)%Z by (apply pow2_lt_inv; lra).
  assert (ilog2 q < i + 1)%Z by (apply pow2_lt_inv; lra).
  lia.
Qed.

Lemma ilog2_comp x y : (0 < x)%Q -> (x == y)%Q -> ilog2 x = ilog2 y.
Proof.
  intros Hx E. symmetry. apply ilog2_unique; [lra|].
  rewrite <- E. by apply ilog2_spec.
Qed.

Lemma rnd_pos_comp x y : (0 < x)%Q -> (x == y)%Q -> (rnd_pos x == rnd_pos y)%Q.
Proof.
  intros Hx E. unfold rnd_pos, ulp_exp.
  rewrite (ilog2_comp x y Hx E). by apply grid_comp.
Qed.

Lemma rnd_pos_nonneg q : (0 < q)%Q -> (0 <= rnd_pos q)%Q.
Proof.
  intros Hq. unfold rnd_pos, grid. pose proof (pow2_pos (ulp_exp q)) as Hp.
  apply Qmult_le_0_compat; [|lra].
  change 0%Q with (inject_Z 0). rewrite <- Zle_Qle.
  change 0%Z with (py_round 0). apply py_round_mono.
  apply Qle_shift_div_l; lra.
Qed.

Lemma rnd_pos_spec q : (0 < q)%Q -> (rnd q == rnd_pos q)%Q.
Proof.
  intros Hq. unfold rnd. destruct (Qcompare_spec q 0); [lra|lra|reflexivity].
Qed.

Lemma rnd_neg_spec q : (q < 0)%Q -> (rnd q == - rnd_pos (- q))%Q.
Proof.
  intros Hq. unfold rnd. destruct (Qcompare_spec q 0); [lra|reflexivity|lra].
Qed.

Lemma rnd_zero_spec q : (q == 0)%Q -> (rnd q == 0)%Q.
Proof.
  intros Hq. unfold rnd. destruct (Qcompare_spec q 0); [reflexivity|lra|lra].
Qed.

Lemma rnd_nonneg q : (0 <= q)%Q -> (0 <= rnd q)%Q.
Proof.
  intros Hq. destruct (Qlt_le_dec 0 q) as [H|H].
  - rewrite rnd_pos_spec by done. by apply rnd_pos_nonneg.
  - rewrite rnd_zero_spec; lra.
Qed.

Lemma rnd_nonpos q : (q <= 0)%Q -> (rnd q <= 0)%Q.
Proof.
  intros Hq. destruct (Qlt_le_dec q 0) as [H|H].
  - rewrite rnd_neg_spec by done.
    pose proof (rnd_pos_nonneg (- q)). lra.
  - rewrite rnd_zero_spec; lra.
Qed.

(** Rounding to the nearest double is monotone. *)
Lemma rnd_mono x y : (x <= y)%Q -> (rnd x <= rnd y)%Q.
Proof.
  intros H.
  destruct (Qlt_le_dec 0 x) as [Hx|Hx].
  - rewrite !rnd_pos_spec by lra. by apply rnd_pos_mono.
  - destruct (Qlt_le_dec y 0) as [Hy|Hy].
    + rewrite !rnd_neg_spec by lra.
      pose proof (rnd_pos_mono (- y) (- x)). lra.
    + pose proof (rnd_nonpos x Hx). pose proof (rnd_nonneg y Hy). lra.
Qed.

Lemma rnd_comp x y : (x == y)%Q -> (rnd x == rnd y)%Q.
Proof.
  intros E. apply Qle_antisym; apply rnd_mono; lra.
Qed.

Lemma rnd_opp q : (rnd (- q) == - rnd q)%Q.
Proof.
  destruct (Q_dec q 0) as [[H|H]|H].
  - rewrite (rnd_pos_spec (- q)), (rnd_neg_spec q) by lra. ring.
  - rewrite (rnd_neg_spec (- q)), (rnd_pos_spec q) by lra.
    rewrite (rnd_pos_comp (- - q) q); [reflexivity|lra|ring].
  - rewrite !rnd_zero_spec; lra.
Qed.

(** The integers up to [2 ^ 53] are doubles. *)
Lemma rnd_small_int z :
  (Z.abs z <= 2 ^ 53)%Z -> (rnd (inject_Z z) == inject_Z z)%Q.
Proof.
  assert (forall z, (0 < z <= 2 ^ 53)%Z -> (rnd (inject_Z z) == inject_Z z)%Q)
    as Hpos.
  { clear z. intros z [Hz0 Hz].
    assert (0 < inject_Z z)%Q as Hq
      by (change 0%Q with (inject_Z 0); by rewrite <- Zlt_Qlt).
    rewrite rnd_pos_spec by done. unfold rnd_pos.
    set (e := ulp_exp (inject_Z z)).
    destruct (ilog2_spec _ Hq) as [H1 H2].
    destruct (Z_le_gt_dec e 0) as [He|He].
    - assert (inject_Z z == inject_Z (z * 2 ^ (- e)) * 2 ^ e)%Q as E.
      { rewrite inject_Z_mult, <- pow2_Z by lia.
        rewrite <- Qmult_assoc, <- pow2_plus.
        replace (- e + e)%Z with 0%Z by lia. change (2 ^ 0)%Q with 1%Q. ring. }
      rewrite (grid_comp _ _ _ E), grid_fix. by rewrite <- E.
    - assert (53 <= ilog2 (inject_Z z))%Z as Hl
        by (unfold e, ulp_exp in He; lia).
      assert (z = 2 ^ 53)%Z as ->.
      { pose proof (pow2_le _ _ Hl) as Hp. rewrite (pow2_Z 53) in Hp by lia.
        assert (inject_Z (2 ^ 53) <= inject_Z z)%Q as Hzz by lra.
        rewrite <- Zle_Qle in Hzz. lia. }
      by vm_compute. }
  intros Hz. destruct (Z.lt_trichotomy z 0) as [H|[->|H]].
  - assert (inject_Z z == - inject_Z (- z))%Q as E
      by (rewrite inject_Z_opp; ring).
    rewrite (rnd_comp _ _ E), rnd_opp, Hpos by lia. by rewrite <- E.
  - by vm_compute.
  - apply Hpos. lia.
Qed.

End F64Facts.

(** ** Facts about the operations on floats *)

Module FloatFacts.
Import Num F64 NumFacts F64Facts.

Lemma huge_pos : (0 < huge)%Q.
Proof. reflexivity. Qed.

Lemma Qle_bool_false a b : Qle_bool a b = false -> (b < a)%Q.
Proof.
  intros E. apply Qnot_le_lt. intros H. apply Qle_bool_iff in H. congruence.
Qed.

Lemma Qeq_bool_false a b : Qeq_bool a b = false -> ~ (a == b)%Q.
Proof. intros E H. apply Qeq_bool_iff in H. congruence. Qed.

(** The three outcomes of rounding an exact result. *)
Lemma of_exact_cases zneg q :
  (of_exact zneg q = Inf false /\ (huge <= rnd q)%Q)
  \/ (of_exact zneg q = Inf true /\ (rnd q <= - huge)%Q)
  \/ (exists s, of_exact zneg q = Fin s (Qred (rnd q))
                /\ (- huge < rnd q < huge)%Q).
Proof.
  unfold of_exact. pose proof huge_pos as Hh.
  destruct (Qle_bool huge (Qabs (Qred (rnd q)))) eqn:E.
  - apply Qle_bool_iff in E. rewrite Qred_correct in E.
    destruct (Qltb q 0) eqn:Eq.
    + right. left. split; [done|]. apply Qltb_lt in Eq.
      pose proof (rnd_nonpos q). rewrite Qabs_neg in E; lra.
    + left. split; [done|]. apply Qltb_ge in Eq.
      pose proof (rnd_nonneg q Eq). rewrite Qabs_pos in E; lra.
  - right. right. eexists. split; [done|].
    apply Qle_bool_false in E. rewrite Qred_correct in E.
    by apply Qabs_Qlt_condition.
Qed.

Lemma of_exact_not_nan zneg q : of_exact zneg q <> NaN.
Proof.
  destruct (of_exact_cases zneg q) as [[-> _]|[[-> _]|(s & -> & _)]]; done.
Qed.

(** An exact result between two doubles within range is rounded to a
    finite float between them. *)
Lemma of_exact_between zneg q lo hi :
  (lo <= q <= hi)%Q -> (rnd lo == lo)%Q -> (rnd hi == hi)%Q ->
  (- huge < lo)%Q -> (hi < huge)%Q ->
  exists s, of_exact zneg q = Fin s (Qred (rnd q)) /\ (lo <= rnd q <= hi)%Q.
Proof.
  intros [H1 H2] Hlo Hhi Gl Gh.
  pose proof (rnd_mono _ _ H1) as M1. pose proof (rnd_mono _ _ H2) as M2.
  destruct (of_exact_cases zneg q) as [[_ G]|[[_ G]|(s & -> & G)]];
    [lra|lra|].
  exists s. split; [done|lra].
Qed.

Lemma fle_Fin s a s' b : fle (Fin s a) (Fin s' b) = true <-> (a <= b)%Q.
Proof.
  unfold fle, fcmp. destruct (Qcompare_spec a b) as [E|E|E]; split; try done;
    intros; lra.
Qed.

Lemma flt_Fin s a s' b : flt (Fin s a) (Fin s' b) = true <-> (a < b)%Q.
Proof.
  unfold flt, fcmp. destruct (Qcompare_spec a b) as [E|E|E]; split; try done;
    intros; lra.
Qed.

Lemma flt_Fin_false s a s' b : flt (Fin s a) (Fin s' b) = false <-> (b <= a)%Q.
Proof.
  unfold flt, fcmp. destruct (Qcompare_spec a b) as [E|E|E]; split; try done;
    intros; lra.
Qed.

Lemma fle_not_nan x y : fle x y = true -> x <> NaN /\ y <> NaN.
Proof. by destruct x, y. Qed.

Lemma fle_neg_inf x : x <> NaN -> fle (Inf true) x = true.
Proof. by destruct x as [|[|]|]. Qed.

Lemma fle_pos_inf x : x <> NaN -> fle x (Inf false) = true.
Proof. by destruct x as [|[|]|]. Qed.

(** Rounding keeps the order of the exact results. *)
Lemma of_exact_mono z z' a b :
  (a <= b)%Q -> fle (of_exact z a) (of_exact z' b) = true.
Proof.
  intros H. pose proof (rnd_mono _ _ H) as M. pose proof huge_pos as Hh.
  destruct (of_exact_cases z a) as [[-> G]|[[-> G]|(s & -> & G)]];
    destruct (of_exact_cases z' b) as [[-> G']|[[-> G']|(s' & -> & G')]];
    try done; try lra.
  apply fle_Fin. by rewrite !Qred_correct.
Qed.

Lemma fsub_not_nan sg t x :
  x <> NaN -> fsub (Fin sg t) x <> NaN.
Proof.
  destruct x as [|[|]|s q]; try done. intros _. apply of_exact_not_nan.
Qed.

(** [t - x] is antitone in [x]. *)
Lemma fsub_antitone sg t x y :
  fle x y = true -> fle (fsub (Fin sg t) y) (fsub (Fin sg t) x) = true.
Proof.
  intros H. destruct (fle_not_nan _ _ H) as [Hx Hy].
  destruct x as [|[|]|s a]; try done.
  - apply fle_pos_inf. by apply fsub_not_nan.
  - destruct y as [|[|]|]; done.
  - destruct y as [|[|]|s' b]; try done.
    + apply fle_neg_inf. by apply fsub_not_nan.
    + apply fle_Fin in H. apply of_exact_mono. rewrite !Qred_correct. lra.
Qed.

Lemma signbit_pos s q : (0 < q)%Q -> signbit (Fin s q) = false.
Proof.
  intros H. unfold signbit.
  destruct (Qeq_bool q 0) eqn:E.
  - apply Qeq_bool_iff in E. lra.
  - apply Qltb_ge. lra.
Qed.

Lemma fdiv_not_nan x sd d : x <> NaN -> fdiv x (Fin sd d) <> NaN.
Proof.
  destruct x as [|[|]|s q]; try done. intros _. apply of_exact_not_nan.
Qed.

Lemma fdiv_inf s sd d : (0 < d)%Q -> fdiv (Inf s) (Fin sd d) = Inf s.
Proof.
  intros Hd. change (fdiv (Inf s) (Fin sd d))
    with (Inf (xorb s (signbit (Fin sd d)))).
  rewrite (signbit_pos sd d Hd). by destruct s.
Qed.

(** [x / d] is monotone in [x] for a positive finite [d]. *)
Lemma fdiv_mono x y sd d :
  (0 < d)%Q -> fle x y = true ->
  fle (fdiv x (Fin sd d)) (fdiv y (Fin sd d)) = true.
Proof.
  intros Hd H. destruct (fle_not_nan _ _ H) as [Hx Hy].
  destruct x as [|[|]|s a]; try done.
  - rewrite fdiv_inf by done. apply fle_neg_inf. by apply fdiv_not_nan.
  - destruct y as [|[|]|]; try done. by rewrite fdiv_inf.
  - destruct y as [|[|]|s' b]; try done.
    + rewrite fdiv_inf by done. apply fle_pos_inf. by apply fdiv_not_nan.
    + apply fle_Fin in H. apply of_exact_mono.
      unfold Qdiv. apply Qmult_le_compat_r; [done|].
      apply Qinv_le_0_compat. lra.
Qed.

End FloatFacts.

(** ** Facts about [adjust] on Python's numbers *)

Module Adjust64.
Import Num Str Py F64 Advisor64 Stated64 NumFacts F64Facts FloatFacts.

(** The specification's divisor and boosted value, with the literals of
    [adjust] by their names. *)
Lemma divisor_eq t : divisor t = if flt t millionth then millionth else t.
Proof. reflexivity. Qed.

Lemma boosted_eq base soil_value low_thr :
  boosted base soil_value low_thr
  = match to_float low_thr with
    | inl e => inl e
    | inr t =>
        match to_float base with
        | inl e => inl e
        | inr b =>
            round_float
              (fmul b (fadd one (fmul three_tenths
                 (severity_of (fdiv (fsub t soil_value) (divisor t))))))
        end
    end.
Proof. reflexivity. Qed.

#[local] Opaque rnd millionth three_tenths.

Lemma three_tenths_fin :
  exists c, three_tenths = Fin false c /\ (0 < c)%Q /\ (c < 1)%Q.
Proof. eexists. by vm_compute. Qed.

Lemma millionth_fin :
  exists m, millionth = Fin false m /\ (0 < m)%Q /\ (m < 1)%Q.
Proof. eexists. by vm_compute. Qed.

Lemma rnd_1 : (rnd 1 == 1)%Q.
Proof. by vm_compute. Qed.

Lemma rnd_2 : (rnd 2 == 2)%Q.
Proof. by vm_compute. Qed.

Lemma rnd_0 : (rnd 0 == 0)%Q.
Proof. by vm_compute. Qed.

(** [clamp(q, 0.0, 1.0)] confines [q] to the range from 0 to 1, and gives
    1 for a [q] that is not a number. *)
Lemma clamp_severity q : clamp q zero one = severity_of q.
Proof.
  destruct q as [|[|]|s v]; try done.
  unfold clamp, py_min, py_max, severity_of, confined, zero, one.
  destruct (flt (Fin s v) (Fin false 1)) eqn:E1.
  - apply flt_Fin in E1.
    destruct (fle (Fin false 1) (Fin s v)) eqn:E2;
      [apply fle_Fin in E2; lra|].
    destruct (flt (Fin false 0) (Fin s v)) eqn:E3.
    + apply flt_Fin in E3.
      destruct (fle (Fin s v) (Fin false 0)) eqn:E4; [|done].
      apply fle_Fin in E4. lra.
    + apply flt_Fin_false in E3.
      destruct (fle (Fin s v) (Fin false 0)) eqn:E4; [done|].
      assert (fle (Fin s v) (Fin false 0) = true) by (by apply fle_Fin).
      congruence.
  - apply flt_Fin_false in E1.
    destruct (fle (Fin s v) (Fin false 0)) eqn:E4;
      [apply fle_Fin in E4; lra|].
    destruct (fle (Fin false 1) (Fin s v)) eqn:E2; [done|].
    assert (fle (Fin false 1) (Fin s v) = true) by (by apply fle_Fin).
    congruence.
Qed.

(** The severity is a finite float from 0 to 1. *)
Lemma severity_range q :
  exists s, severity_of q = Fin s (value (severity_of q))
            /\ (0 <= value (severity_of q) <= 1)%Q.
Proof.
  destruct q as [|[|]|s v]; try (by eexists; split; [done|simpl; lra]).
  unfold severity_of, confined, zero, one.
  destruct (fle (Fin s v) (Fin false 0)) eqn:E1;
    [by eexists; split; [done|simpl; lra]|].
  destruct (fle (Fin false 1) (Fin s v)) eqn:E2;
    [by eexists; split; [done|simpl; lra]|].
  exists s. split; [done|]. simpl.
  split; apply Qnot_lt_le; intros H.
  - assert (fle (Fin s v) (Fin false 0) = true) by (apply fle_Fin; lra).
    congruence.
  - assert (fle (Fin false 1) (Fin s v) = true) by (apply fle_Fin; lra).
    congruence.
Qed.

(** The severity is monotone in the quotient. *)
Lemma severity_mono q q' :
  fle q q' = true ->
  (value (severity_of q) <= value (severity_of q'))%Q.
Proof.
  intros H. destruct (severity_range q) as (_ & _ & [L U]).
  destruct (severity_range q') as (_ & _ & [L' U']).
  destruct q as [|[|]|s v]; try done.
  - destruct q' as [|[|]|]; done.
  - destruct q' as [|[|]|s' v']; try done.
    apply fle_Fin in H. revert L U L' U'.
    unfold severity_of, confined, zero, one.
    destruct (fle (Fin s v) (Fin false 0)) eqn:E1; [done|].
    destruct (fle (Fin s' v') (Fin false 0)) eqn:E1'.
    { apply fle_Fin in E1'.
      assert (fle (Fin s v) (Fin false 0) = true) by (apply fle_Fin; lra).
      congruence. }
    destruct (fle (Fin false 1) (Fin s' v')) eqn:E2';
      [by destruct (fle (Fin false 1) (Fin s v))|].
    destruct (fle (Fin false 1) (Fin s v)) eqn:E2; [|done].
    apply fle_Fin in E2.
    assert (fle (Fin false 1) (Fin s' v') = true) by (apply fle_Fin; lra).
    congruence.
Qed.

(** The factor [1.0 + 0.30 * severity] for a severity from 0 to 1 is a
    finite float from 1 to 2. *)
Lemma factor_fin s v :
  (0 <= v <= 1)%Q ->
  exists s',
    fadd one (fmul three_tenths (Fin s v))
    = Fin s' (value (fadd one (fmul three_tenths (Fin s v))))
    /\ (1 <= value (fadd one (fmul three_tenths (Fin s v))) <= 2)%Q.
Proof.
  intros [Hv0 Hv1]. destruct three_tenths_fin as (c & -> & Hc0 & Hc1).
  pose proof huge_pos as Hh. pose proof rnd_0. pose proof rnd_1.
  pose proof rnd_2.
  change (fmul (Fin false c) (Fin s v))
    with (of_exact (xorb (signbit (Fin false c)) (signbit (Fin s v))) (c * v)).
  destruct (of_exact_between
              (xorb (signbit (Fin false c)) (signbit (Fin s v))) (c * v) 0 1)
    as (s1 & -> & G1); try done; try lra; [nra|].
  unfold one.
  change (fadd (Fin false 1) (Fin s1 (Qred (rnd (c * v)))))
    with (of_exact (signbit (Fin false 1)
                    && signbit (Fin s1 (Qred (rnd (c * v)))))
            (1 + Qred (rnd (c * v)))).
  destruct (of_exact_between
              (signbit (Fin false 1)
               && signbit (Fin s1 (Qred (rnd (c * v)))))
              (1 + Qred (rnd (c * v))) 1 2)
    as (s2 & -> & G2); try done; try lra.
  { rewrite Qred_correct. lra. }
  exists s2. split; [done|]. cbn [value]. rewrite Qred_correct. lra.
Qed.

(** The factor is monotone in the severity. *)
Lemma factor_mono s v s' v' :
  (0 <= v)%Q -> (v <= v')%Q -> (v' <= 1)%Q ->
  (value (fadd one (fmul three_tenths (Fin s v)))
   <= value (fadd one (fmul three_tenths (Fin s' v'))))%Q.
Proof.
  intros H0 H H1. destruct three_tenths_fin as (c & -> & Hc0 & Hc1).
  pose proof huge_pos as Hh. pose proof rnd_0. pose proof rnd_1.
  pose proof rnd_2.
  change (fmul (Fin false c) (Fin s v))
    with (of_exact (xorb (signbit (Fin false c)) (signbit (Fin s v))) (c * v)).
  change (fmul (Fin false c) (Fin s' v'))
    with (of_exact (xorb (signbit (Fin false c)) (signbit (Fin s' v')))
            (c * v')).
  destruct (of_exact_between
              (xorb (signbit (Fin false c)) (signbit (Fin s v))) (c * v) 0 1)
    as (s1 & -> & G1); try done; try lra; [nra|].
  destruct (of_exact_between
              (xorb (signbit (Fin false c)) (signbit (Fin s' v'))) (c * v') 0 1)
    as (s1' & -> & G1'); try done; try lra; [nra|].
  assert (rnd (c * v) <= rnd (c * v'))%Q as M1 by (apply rnd_mono; nra).
  unfold one.
  change (fadd (Fin false 1) (Fin s1 (Qred (rnd (c * v)))))
    with (of_exact (signbit (Fin false 1)
                    && signbit (Fin s1 (Qred (rnd (c * v)))))
            (1 + Qred (rnd (c * v)))).
  change (fadd (Fin false 1) (Fin s1' (Qred (rnd (c * v')))))
    with (of_exact (signbit (Fin false 1)
                    && signbit (Fin s1' (Qred (rnd (c * v')))))
            (1 + Qred (rnd (c * v')))).
  destruct (of_exact_between
              (signbit (Fin false 1)
               && signbit (Fin s1 (Qred (rnd (c * v)))))
              (1 + Qred (rnd (c * v))) 1 2)
    as (s2 & -> & G2); try done; try lra.
  { rewrite Qred_correct. lra. }
  destruct (of_exact_between
              (signbit (Fin false 1)
               && signbit (Fin s1' (Qred (rnd (c * v')))))
              (1 + Qred (rnd (c * v'))) 1 2)
    as (s2' & -> & G2'); try done; try lra.
  { rewrite Qred_correct. lra. }
  cbn [value].
  rewrite (Qred_correct (rnd (1 + Qred (rnd (c * v))))),
    (Qred_correct (rnd (1 + Qred (rnd (c * v'))))).
  apply rnd_mono. rewrite !Qred_correct. lra.
Qed.


(** The float of an [int] is finite. *)
Lemma of_int_fin z t :
  of_int z = inr t -> t = Fin (z <? 0)%Z (Qred (rnd (inject_Z z))).
Proof.
  unfold of_int. destruct (Qle_bool _ _); [done|]. by intros [= <-].
Qed.

Lemma fcmp_antisym x y : fcmp y x = option_map CompOpp (fcmp x y).
Proof.
  destruct x as [|[|]|s a], y as [|[|]|s' b]; try done.
  simpl. by rewrite <- Qcompare_antisym.
Qed.

(** A threshold with a soil value below it is not NaN, and its divisor
    [max(low_thr, 1e-6)] is either infinite with it or finite and
    positive. *)
Lemma divisor_cases soil_value low_thr t :
  lt_num soil_value low_thr = true -> to_float low_thr = inr t ->
  (t = Inf false /\ divisor t = Inf false /\ soil_value <> Inf false
   /\ soil_value <> NaN)
  \/ (exists s tq sd d, t = Fin s tq /\ divisor t = Fin sd d /\ (0 < d)%Q).
Proof.
  intros Hlt Ht. destruct millionth_fin as (m & Em & Hm0 & Hm1).
  assert (forall s tq, t = Fin s tq ->
            exists sd d, divisor t = Fin sd d /\ (0 < d)%Q) as Hfin.
  { intros s tq ->. rewrite divisor_eq, Em.
    destruct (flt (Fin s tq) (Fin false m)) eqn:E; [by eauto|].
    apply flt_Fin_false in E. exists s, tq. split; [done|lra]. }
  destruct low_thr as [z|f].
  - right. apply of_int_fin in Ht.
    destruct (Hfin _ _ Ht) as (sd & d & ? & ?).
    exists (z <? 0)%Z, (Qred (rnd (inject_Z z))), sd, d.
    split; [exact Ht|]. split; assumption.
  - injection Ht as ->. unfold lt_num, cmp_num in Hlt.
    destruct t as [|[|]|s tq].
    + destruct soil_value; discriminate Hlt.
    + destruct soil_value as [|[|]|]; discriminate Hlt.
    + left. destruct soil_value as [|[|]|]; try discriminate Hlt;
        repeat split; discriminate.
    + right. destruct (Hfin _ _ eq_refl) as (sd & d & ? & ?).
      exists s, tq, sd, d. split; [reflexivity|]. split; assumption.
Qed.

(** The divisor of [adjust] is positive. *)
Lemma divisor_positive soil_value low_thr t :
  lt_num soil_value low_thr = true -> to_float low_thr = inr t ->
  flt zero (divisor t) = true.
Proof.
  intros Hlt Ht.
  destruct (divisor_cases _ _ _ Hlt Ht)
    as [(_ & -> & _)|(s & tq & sd & d & _ & -> & Hd)]; [done|].
  by apply flt_Fin.
Qed.

(** [max(low_thr, 1e-6)], converted for the division, is the divisor of
    the converted threshold: on an [int] threshold the exact comparison
    with [1e-6] and the comparison after the conversion agree. *)
Lemma max_num_divisor soil_value low_thr t :
  lt_num soil_value low_thr = true -> to_float low_thr = inr t ->
  to_float (max_num low_thr millionth) = inr (divisor t).
Proof.
  intros Hlt Ht. destruct millionth_fin as (m & Em & Hm0 & Hm1).
  unfold max_num, gt_num. rewrite divisor_eq. destruct low_thr as [z|f].
  - pose proof (of_int_fin _ _ Ht) as E. rewrite Em. unfold cmp_num, fcmp.
    rewrite E.
    destruct (Z_le_gt_dec z 0) as [Hz|Hz].
    + assert (inject_Z z <= 0)%Q as Hq
        by (change 0%Q with (inject_Z 0); by rewrite <- Zle_Qle).
      pose proof (rnd_nonpos _ Hq) as Hr.
      destruct (Qcompare_spec m (inject_Z z)) as [G|G|G]; try lra.
      assert (flt (Fin (z <? 0)%Z (Qred (rnd (inject_Z z)))) (Fin false m)
              = true) as ->; [|reflexivity].
      apply flt_Fin. rewrite Qred_correct. lra.
    + assert (1 <= inject_Z z)%Q as Hq
        by (change 1%Q with (inject_Z 1); rewrite <- Zle_Qle; lia).
      pose proof (rnd_mono _ _ Hq) as Hr. rewrite rnd_1 in Hr.
      destruct (Qcompare_spec m (inject_Z z)) as [G|G|G]; try lra.
      assert (flt (Fin (z <? 0)%Z (Qred (rnd (inject_Z z)))) (Fin false m)
              = false) as ->; [|by rewrite <- E].
      apply flt_Fin_false. rewrite Qred_correct. lra.
  - injection Ht as ->. unfold cmp_num, flt.
    rewrite (fcmp_antisym t millionth).
    by destruct (fcmp t millionth) as [[| |]|].
Qed.

(** The division of [adjust] does not raise. *)
Lemma truediv_defined a soil_value low_thr t :
  lt_num soil_value low_thr = true -> to_float low_thr = inr t ->
  truediv a (max_num low_thr millionth) = inr (fdiv a (divisor t)).
Proof.
  intros Hlt Ht. unfold truediv.
  rewrite (max_num_divisor _ _ _ Hlt Ht).
  destruct (divisor_cases _ _ _ Hlt Ht)
    as [(_ & -> & _)|(s & tq & sd & d & _ & -> & Hd)]; [done|].
  simpl. destruct (Qeq_bool d 0) eqn:E; [|done].
  apply Qeq_bool_iff in E. lra.
Qed.

(** Below the threshold, [adjust] computes the boosted value of the
    specification. *)
Lemma adjust_boosted base soil_value low_thr :
  lt_num soil_value low_thr = true ->
  adjust base soil_value low_thr = boosted base soil_value low_thr.
Proof.
  intros Hlt. rewrite boosted_eq. unfold adjust. rewrite Hlt.
  destruct (to_float low_thr) as [e|t] eqn:Ht; [done|].
  by rewrite (truediv_defined _ _ _ _ Hlt Ht), clamp_severity.
Qed.

(** At or above the threshold, [adjust] rounds the base. *)
Lemma adjust_base base soil_value low_thr :
  lt_num soil_value low_thr = false ->
  adjust base soil_value low_thr = round_num base.
Proof. intros Hlt. unfold adjust. by rewrite Hlt. Qed.

(** A boosted value that is returned is the rounded product of the
    converted base and a finite factor from 1 to 2. *)
Lemma boosted_inv base soil_value low_thr a :
  boosted base soil_value low_thr = inr a ->
  exists t b s F,
    to_float low_thr = inr t
    /\ to_float base = inr b
    /\ fadd one (fmul three_tenths
                   (severity_of (fdiv (fsub t soil_value) (divisor t))))
       = Fin s F
    /\ (1 <= F <= 2)%Q
    /\ round_float (fmul b (Fin s F)) = inr a.
Proof.
  rewrite boosted_eq. intros H.
  destruct (to_float low_thr) as [e|t]; [done|].
  destruct (to_float base) as [e|b]; [done|]. cbv zeta in H.
  exists t, b.
  destruct (severity_range (fdiv (fsub t soil_value) (divisor t)))
    as (s & Es & Hs).
  destruct (factor_fin s _ Hs) as (s' & Ef & HF).
  rewrite <- Es in Ef, HF. rewrite Ef in H.
  eexists s', _. split; [reflexivity|]. split; [reflexivity|].
  split; [exact Ef|]. split; [exact HF|exact H].
Qed.

Lemma lt_num_not_nan x a : lt_num x a = true -> x <> NaN.
Proof. by destruct x, a. Qed.

(** [<] extends downwards along [<=]. *)
Lemma lt_num_fle x y a :
  fle x y = true -> lt_num y a = true -> lt_num x a = true.
Proof.
  unfold lt_num, cmp_num. intros H.
  assert (forall f, match fcmp y f with Some Lt => true | _ => false end = true
                    -> match fcmp x f with Some Lt => true | _ => false end
                       = true) as G.
  { intros f. destruct x as [|[|]|s p], y as [|[|]|s' q], f as [|[|]|s'' r];
      try done.
    apply fle_Fin in H. simpl.
    destruct (Qcompare_spec q r); try done.
    destruct (Qcompare_spec p r); try done; lra. }
  destruct a; apply G.
Qed.

(** Below the threshold, the severity is antitone in the soil value. *)
Lemma severity_antitone low_thr t soil1 soil2 :
  to_float low_thr = inr t ->
  lt_num soil1 low_thr = true -> lt_num soil2 low_thr = true ->
  fle soil1 soil2 = true ->
  (value (severity_of (fdiv (fsub t soil2) (divisor t)))
   <= value (severity_of (fdiv (fsub t soil1) (divisor t))))%Q.
Proof.
  intros Ht H1 H2 H.
  destruct (divisor_cases _ _ _ H1 Ht)
    as [(-> & -> & N1 & N1')|(s & tq & sd & d & -> & -> & Hd)].
  - destruct (divisor_cases _ _ _ H2 Ht) as [(_ & _ & N2 & N2')|?];
      [|by destruct H0 as (? & ? & ? & ? & ? & _)].
    destruct soil1 as [|[|]|], soil2 as [|[|]|]; try done; simpl; lra.
  - apply severity_mono, fdiv_mono; [done|]. by apply fsub_antitone.
Qed.

(** The rounded product is monotone in the factor, for a base that is not
    negative; when it is returned for the larger factor, it is returned
    for the smaller one. *)
Lemma boost_mono b s F s' F' a' :
  fle zero b = true -> (0 <= F)%Q -> (F <= F')%Q ->
  round_float (fmul b (Fin s' F')) = inr a' ->
  exists a, round_float (fmul b (Fin s F)) = inr a /\ (a <= a')%Z.
Proof.
  intros Hb H0 HF. pose proof huge_pos as Hh.
  destruct b as [|[|]|sb bq]; try done.
  - simpl. by destruct (Qeq_bool F' 0).
  - apply fle_Fin in Hb.
    change (fmul (Fin sb bq) (Fin s' F'))
      with (of_exact (xorb (signbit (Fin sb bq)) (signbit (Fin s' F')))
              (bq * F')).
    change (fmul (Fin sb bq) (Fin s F))
      with (of_exact (xorb (signbit (Fin sb bq)) (signbit (Fin s F)))
              (bq * F)).
    assert (0 <= bq * F)%Q as P by nra.
    assert (bq * F <= bq * F')%Q as M by nra.
    pose proof (rnd_nonneg _ P) as P'. pose proof (rnd_mono _ _ M) as M'.
    destruct (of_exact_cases
                (xorb (signbit (Fin sb bq)) (signbit (Fin s' F'))) (bq * F'))
      as [[-> G']|[[-> G']|(s1' & -> & G')]]; try done.
    destruct (of_exact_cases
                (xorb (signbit (Fin sb bq)) (signbit (Fin s F))) (bq * F))
      as [[-> G]|[[-> G]|(s1 & -> & G)]]; try lra.
    simpl. intros [= <-]. eexists. split; [done|].
    apply py_round_mono. by rewrite !Qred_correct.
Qed.

(** The rounded product with a factor of at least 1 is at least the
    rounded base, for a base that is not negative and is a double. *)
Lemma boost_ge_base base b s F a :
  nonneg base = true -> representable base = true ->
  to_float base = inr b -> (1 <= F)%Q ->
  round_float (fmul b (Fin s F)) = inr a ->
  exists r, round_num base = inr r /\ (r <= a)%Z.
Proof.
  intros Hn Hr Hb HF. pose proof huge_pos as Hh.
  assert (forall sb bq q,
            b = Fin sb bq -> (0 <= bq)%Q -> (rnd q == q)%Q -> (bq == q)%Q ->
            round_float (fmul b (Fin s F)) = inr a ->
            (py_round q <= a)%Z) as G.
  { intros sb bq q -> Hq Hd Eq.
    change (fmul (Fin sb bq) (Fin s F))
      with (of_exact (xorb (signbit (Fin sb bq)) (signbit (Fin s F)))
              (bq * F)).
    destruct (of_exact_cases
                (xorb (signbit (Fin sb bq)) (signbit (Fin s F))) (bq * F))
      as [[-> G]|[[-> G]|(s1 & -> & G)]]; try done.
    simpl. intros [= <-]. apply py_round_mono. rewrite Qred_correct, <- Hd.
    apply rnd_mono. nra. }
  destruct base as [z|f].
  - apply of_int_fin in Hb. simpl in Hn, Hr. apply Z.leb_le in Hn.
    apply Qeq_bool_iff in Hr. intros H. exists z. split; [done|].
    rewrite <- (py_round_Z z).
    apply (G _ _ (inject_Z z) Hb); try done.
    + rewrite Qred_correct, Hr. change 0%Q with (inject_Z 0).
      by rewrite <- Zle_Qle.
    + by rewrite Qred_correct.
  - injection Hb as ->. destruct b as [|[|]|sb bq]; try done.
    + simpl. by destruct (Qeq_bool F 0).
    + simpl in Hn, Hr. apply fle_Fin in Hn.
      apply andb_true_iff in Hr as [Hr _]. apply Qeq_bool_iff in Hr.
      intros H. exists (py_round bq). split; [done|].
      by apply (G sb bq bq).
Qed.

(** The factor of the full severity, [1.0 + 0.30 * 1.0], is the double
    [1.3]. *)
Lemma full_factor : fadd one (fmul three_tenths one) = lit (13 # 10).
Proof. by vm_compute. Qed.

Lemma full_factor_fin :
  exists F, lit (13 # 10) = Fin false F /\ (1 <= F)%Q.
Proof. eexists. by vm_compute. Qed.


(** A soil value that is not positive is below a threshold of at least
    [1e-6]. *)
Lemma below_threshold soil_value low_thr t :
  to_float low_thr = inr t ->
  fle millionth t = true -> fle soil_value zero = true ->
  lt_num soil_value low_thr = true.
Proof.
  intros Ht Hm Hs. destruct millionth_fin as (m & Em & Hm0 & Hm1).
  rewrite Em in Hm. unfold lt_num, cmp_num. destruct low_thr as [z|f].
  - apply of_int_fin in Ht. subst t. apply fle_Fin in Hm.
    rewrite Qred_correct in Hm.
    assert (0 < z)%Z as Hz.
    { destruct (Z_le_gt_dec z 0) as [G|G]; [|lia].
      assert (inject_Z z <= 0)%Q as Hq
        by (change 0%Q with (inject_Z 0); by rewrite <- Zle_Qle).
      pose proof (rnd_nonpos _ Hq). lra. }
    assert (0 < inject_Z z)%Q as Hq
      by (change 0%Q with (inject_Z 0); by rewrite <- Zlt_Qlt).
    destruct soil_value as [|[|]|s q]; try discriminate Hs; [reflexivity|].
    apply fle_Fin in Hs. unfold fcmp.
    destruct (Qcompare_spec q (inject_Z z)); [lra|reflexivity|lra].
  - injection Ht as ->.
    destruct t as [|[|]|st tq]; try discriminate Hm.
    + destruct soil_value as [|[|]|s q]; try discriminate Hs; reflexivity.
    + apply fle_Fin in Hm.
      destruct soil_value as [|[|]|s q]; try discriminate Hs; [reflexivity|].
      apply fle_Fin in Hs. unfold fcmp.
      destruct (Qcompare_spec q tq); [lra|reflexivity|lra].
Qed.

(** The severity is full when the soil value is not positive and the
    threshold is a double of at least [1e-6]. *)
Lemma severity_full soil_value t :
  is_double t = true ->
  fle millionth t = true -> fle soil_value zero = true ->
  Stated64.severity_of (fdiv (fsub t soil_value) (Stated64.divisor t)) = one.
Proof.
  intros Hd Hm Hs. destruct millionth_fin as (m & Em & Hm0 & Hm1).
  rewrite divisor_eq. rewrite Em in Hm |- *.
  pose proof huge_pos as Hh. pose proof rnd_1 as R1.
  destruct t as [|[|]|st tq]; try discriminate Hm.
  - destruct soil_value as [|[|]|s q]; try discriminate Hs; reflexivity.
  - apply fle_Fin in Hm.
    assert (flt (Fin st tq) (Fin false m) = false) as ->
      by (apply flt_Fin_false; lra).
    assert (0 < tq)%Q as Ht by lra.
    simpl in Hd. apply andb_true_iff in Hd as [Hd _].
    apply Qeq_bool_iff in Hd.
    assert (forall x, fle one x = true -> Stated64.severity_of x = one) as G.
    { intros [|[|]|sx vx] Hx;
        [discriminate Hx|discriminate Hx|reflexivity|].
      apply fle_Fin in Hx. unfold Stated64.severity_of, Stated64.confined.
      assert (fle (Fin sx vx) (Fin false 0) = false) as ->.
      { destruct (fle (Fin sx vx) (Fin false 0)) eqn:E; [|reflexivity].
        apply fle_Fin in E. lra. }
      assert (fle (Fin false 1) (Fin sx vx) = true) as ->
        by (apply fle_Fin; exact Hx).
      reflexivity. }
    apply G.
    destruct soil_value as [|[|]|s q]; try discriminate Hs.
    + change (fsub (Fin st tq) (Inf true)) with (Inf false).
      by rewrite fdiv_inf.
    + apply fle_Fin in Hs.
      change (fsub (Fin st tq) (Fin s q))
        with (of_exact (signbit (Fin st tq) && signbit (fneg (Fin s q)))
                (tq + Qred (- q))).
      assert (tq <= tq + Qred (- q))%Q as Hx by (rewrite Qred_correct; lra).
      pose proof (rnd_mono _ _ Hx) as Mx. rewrite Hd in Mx.
      destruct (of_exact_cases
                  (signbit (Fin st tq) && signbit (fneg (Fin s q)))
                  (tq + Qred (- q)))
        as [[-> G1]|[[-> G1]|(s1 & -> & G1)]]; [|lra|].
      * by rewrite fdiv_inf.
      * change (fdiv (Fin s1 (Qred (rnd (tq + Qred (- q))))) (Fin st tq))
          with (of_exact (xorb (signbit (Fin s1 (Qred (rnd (tq + Qred (- q))))))
                            (signbit (Fin st tq)))
                  (Qred (rnd (tq + Qred (- q))) / tq)).
        assert (1 <= Qred (rnd (tq + Qred (- q))) / tq)%Q as Hq.
        { apply Qle_shift_div_l; [done|]. rewrite Qred_correct. lra. }
        pose proof (rnd_mono _ _ Hq) as Mq. rewrite R1 in Mq.
        destruct (of_exact_cases
                    (xorb (signbit (Fin s1 (Qred (rnd (tq + Qred (- q))))))
                       (signbit (Fin st tq)))
                    (Qred (rnd (tq + Qred (- q))) / tq))
          as [[-> G2]|[[-> G2]|(s2 & -> & G2)]]; [reflexivity|lra|].
        apply fle_Fin. by rewrite Qred_correct.
Qed.

(** The float of an [int] that the conversion leaves unchanged is a
    double. *)
Lemma of_int_double z t :
  representable (Int z) = true -> of_int z = inr t -> is_double t = true.
Proof.
  unfold representable, of_int. intros Hr.
  destruct (Qle_bool huge (Qabs (Qred (rnd (inject_Z z))))) eqn:E;
    [discriminate|].
  intros [= <-]. apply Qeq_bool_iff in Hr. apply Qle_bool_false in E.
  unfold is_double. apply andb_true_iff. split.
  - apply Qeq_bool_iff.
    rewrite (rnd_comp _ (inject_Z z)) by (rewrite Qred_correct; exact Hr).
    by rewrite Qred_correct.
  - by apply Qltb_lt.
Qed.

Lemma to_float_raises a e :
  to_float a = inl e -> exc_type e = OverflowError.
Proof.
  destruct a as [z|f]; [|done]. unfold to_float, of_int.
  destruct (Qle_bool _ _); [|done]. by intros [= <-].
Qed.

Lemma round_float_raises x e :
  round_float x = inl e ->
  exc_type e = OverflowError \/ exc_type e = ValueError.
Proof. destruct x; intros [= <-]; auto. Qed.

(** The exceptions of [adjust] are those of the conversion of an [int]
    and of [round]. *)
Lemma adjust_raises base soil_value low_thr e :
  adjust base soil_value low_thr = inl e ->
  exc_type e = OverflowError \/ exc_type e = ValueError.
Proof.
  destruct (lt_num soil_value low_thr) eqn:Hlt.
  - rewrite (adjust_boosted _ _ _ Hlt), boosted_eq.
    destruct (to_float low_thr) as [e'|t] eqn:Ht.
    { intros [= <-]. left. by apply (to_float_raises low_thr). }
    destruct (to_float base) as [e'|b] eqn:Hb.
    { intros [= <-]. left. by apply (to_float_raises base). }
    apply round_float_raises.
  - rewrite (adjust_base _ _ _ Hlt). destruct base as [z|f]; [done|].
    apply round_float_raises.
Qed.

(** A result of [adjust] is at least the rounded base, for a base that is
    not negative and that its conversion leaves unchanged. *)
Lemma adjust_ge_base base soil_value low_thr a :
  nonneg base = true -> representable base = true ->
  adjust base soil_value low_thr = inr a ->
  exists r, round_num base = inr r /\ (r <= a)%Z.
Proof.
  intros Hn Hr H. destruct (lt_num soil_value low_thr) eqn:L.
  - rewrite (adjust_boosted _ _ _ L) in H.
    destruct (boosted_inv _ _ _ _ H) as (t & b & s & F & Ht & Hb & EF & HF & R).
    apply (boost_ge_base base b s F); try done. lra.
  - rewrite (adjust_base _ _ _ L) in H. exists a. split; [done|lia].
Qed.

End Adjust64.

(** ** Running [recommend] on Python's numbers *)

Module Run64.
Import Num Str Py F64 Advisor64 NumFacts Run.

Lemma seed_notes (h : heap) (c : CropRule) :
  deref (h ++ [[]; []]) (default (length h + 1) (notes c)) = notes_items h c.
Proof.
  unfold notes_items. destruct (notes c) as [r|]; simpl.
  - destruct (decide (r < length h)) as [Hr|Hr].
    + by rewrite deref_below.
    + rewrite (deref_above h) by lia.
      replace r with (length h + (r - length h)) by lia.
      rewrite deref_frame. by destruct (r - length h) as [|[|[|?]]].
  - by rewrite deref_frame.
Qed.

Lemma bind_eval_raise {A B} (e : exc) (f : A -> M B) (h : heap) :
  (let* x := eval (inl e) in f x) h = (inl e, h).
Proof. done. Qed.

(** What the caller observes after a call on a known crop: the exception
    of the first [adjust] that raises, or the result. *)
Lemma recommend_outcome crop soil_ph n p k rainfall_mm rules (h : heap) c :
  crops rules !! lower (strip crop) = Some c ->
  observe (recommend crop soil_ph n p k rainfall_mm rules h)
  = outcome crop soil_ph n p k rainfall_mm rules h c.
Proof.
  intros Hc. unfold recommend, outcome, estimates.
  destruct (contains_true _ _ _ Hc) as [-> Hget]. simpl.
  unfold bind at 1. unfold eval at 1. rewrite Hget.
  unfold ph_message, warnings.
  destruct (ideal_ph c) as [ideal_low ideal_high].
  destruct (base_npk c) as [[baseN baseP] baseK]. simpl.
  rewrite !bind_new_list, bind_list_of.
  rewrite <- !app_assoc. simpl app.
  rewrite !length_app. simpl length. rewrite seed_notes.
  rewrite do_append3, do_append.
  rewrite (frame_update h _ _ 0) by lia. simpl.
  rewrite do_append3, do_append.
  rewrite (frame_update h _ _ 2) by lia. simpl.
  destruct (adjust baseN n (low_n (thresholds rules))) as [e|recN];
    [by rewrite bind_eval_raise|].
  rewrite bind_eval.
  destruct (adjust baseP p (low_p (thresholds rules))) as [e|recP];
    [by rewrite bind_eval_raise|].
  rewrite bind_eval.
  destruct (adjust baseK k (low_k (thresholds rules))) as [e|recK];
    [by rewrite bind_eval_raise|].
  rewrite bind_eval.
  rewrite do_warning, (frame_update h _ _ 0) by lia. simpl.
  rewrite do_warning, (frame_update h _ _ 0) by lia. simpl.
  rewrite do_warning, (frame_update h _ _ 0) by lia. simpl.
  unfold ret, observe, read_result, rain_tip, echo. simpl.
  pose proof (deref_frame h) as F.
  rewrite <- (Nat.add_0_r (length h)) at 1. rewrite !F. simpl.
  by rewrite <- !app_assoc.
Qed.

(** A call on an unknown crop raises before it allocates anything. *)
Lemma unknown_crop_raises crop soil_ph n p k rainfall_mm rules (h : heap) :
  crops rules !! lower (strip crop) = None ->
  recommend crop soil_ph n p k rainfall_mm rules h
  = (inl (Exc ValueError
            (Advisor.unknown_crop_msg crop (Advisor.keys (crops rules)))), h).
Proof.
  intros Hc. unfold recommend. by rewrite (contains_false _ _ Hc).
Qed.

(** A call that returns is a call on a crop of the table whose three
    calls of [adjust] returned. *)
Lemma returned_result crop soil_ph n p k rainfall_mm rules (h : heap) v :
  observe (recommend crop soil_ph n p k rainfall_mm rules h) = inr v ->
  exists c recN recP recK,
    crops rules !! lower (strip crop) = Some c
    /\ adjust (base_npk c).1.1 n (low_n (thresholds rules)) = inr recN
    /\ adjust (base_npk c).1.2 p (low_p (thresholds rules)) = inr recP
    /\ adjust (base_npk c).2 k (low_k (thresholds rules)) = inr recK
    /\ v = {| v_crop := lower (strip crop);
              v_inputs := echo soil_ph n p k rainfall_mm;
              v_recommendation :=
                {| Advisor.npk_estimate := [recN; recP; recK];
                   Advisor.explain := Advisor.explain_text |};
              v_messages := ph_message soil_ph (lower (strip crop)) c
                              :: warnings n p k (thresholds rules);
              v_tips := notes_items h c
                          ++ [rain_tip rainfall_mm (thresholds rules)] |}.
Proof.
  destruct (crops rules !! lower (strip crop)) as [c|] eqn:Hc;
    [|by rewrite (unknown_crop_raises _ _ _ _ _ _ _ _ Hc)].
  rewrite (recommend_outcome _ _ _ _ _ _ _ _ _ Hc).
  unfold outcome, estimates.
  destruct (adjust (base_npk c).1.1 n _) as [e|recN] eqn:EN; [done|].
  destruct (adjust (base_npk c).1.2 p _) as [e|recP] eqn:EP; [done|].
  destruct (adjust (base_npk c).2 k _) as [e|recK] eqn:EK; [done|].
  intros [= <-]. by exists c, recN, recP, recK.
Qed.

End Run64.

(** ** Facts about the messages on Python's numbers *)

Module Messages64.
Import Num Str Py F64 Advisor64 NumFacts StrFacts.









End Messages64.

(** ** The properties of the numbers *)

Import F64 Advisor64 F64Facts FloatFacts Adjust64 Run64 Messages64.

#[local] Opaque rnd millionth three_tenths.

(** C2, as amended.  For every successful call, each component of the
    estimate whose base value is not negative and is left unchanged by
    the conversion to a float (every double is, and every integer up to
    [2**53]) is at least that base value rounded to the nearest integer,
    which for an integer base is the base itself. *)
Theorem estimate_above_base crop soil_ph n p k rainfall_mm rules (h : heap) v :
  observe (recommend crop soil_ph n p k rainfall_mm rules h) = inr v ->
  exists c recN recP recK,
    crops rules !! lower (strip crop) = Some c
    /\ Advisor.npk_estimate (v_recommendation v) = [recN; recP; recK]
    /\ (nonneg (base_npk c).1.1 = true ->
        representable (base_npk c).1.1 = true ->
        exists r, round_num (base_npk c).1.1 = inr r /\ (r <= recN)%Z)
    /\ (nonneg (base_npk c).1.2 = true ->
        representable (base_npk c).1.2 = true ->
        exists r, round_num (base_npk c).1.2 = inr r /\ (r <= recP)%Z)
    /\ (nonneg (base_npk c).2 = true ->
        representable (base_npk c).2 = true ->
        exists r, round_num (base_npk c).2 = inr r /\ (r <= recK)%Z).
Proof.
  intros Hv.
  destruct (returned_result _ _ _ _ _ _ _ _ _ Hv)
    as (c & recN & recP & recK & Hc & HN & HP & HK & ->).
  exists c, recN, recP, recK. simpl.
  repeat split; try done; intros Hn Hr; eapply adjust_ge_base; eauto.
Qed.

Lemma estimate_above_base_witness :
  exists c recN recP recK,
    crops example_rules !! lower (strip " Maize ") = Some c
    /\ [132; 60; 40]%Z = [recN; recP; recK]
    /\ (nonneg (base_npk c).1.1 = true ->
        representable (base_npk c).1.1 = true ->
        exists r, round_num (base_npk c).1.1 = inr r /\ (r <= recN)%Z)
    /\ (nonneg (base_npk c).1.2 = true ->
        representable (base_npk c).1.2 = true ->
        exists r, round_num (base_npk c).1.2 = inr r /\ (r <= recP)%Z)
    /\ (nonneg (base_npk c).2 = true ->
        representable (base_npk c).2 = true ->
        exists r, round_num (base_npk c).2 = inr r /\ (r <= recK)%Z).
Proof.
  apply (estimate_above_base " Maize " (lit 5) (lit 20) (lit 50) (lit 45) 500
           example_rules []
           {| v_crop := "maize";
              v_inputs := echo (lit 5) (lit 20) (lit 50) (lit 45) 500;
              v_recommendation :=
                {| Advisor.npk_estimate := [132; 60; 40]%Z;
                   Advisor.explain := Advisor.explain_text |};
              v_messages := [ph_low_msg (lit 5) "maize"; Advisor.n_low_msg];
              v_tips := [Advisor.rain_moderate_tip] |}).
  vm_compute. reflexivity.
Defined.

(** The statement of the specification fails on the code in three ways.
    A base of 120.4 with an adequate soil value gives [round(120.4)],
    which is 120 and below the base.  A negative base of -100 with a soil
    nitrogen of 0 gives -130.  The [int] base [2**53 + 1], which is not a
    double, with a soil nitrogen of 0.9999999999999999 under the
    threshold 1.0 gives [2**53]: the product is computed on the
    converted base. *)
Lemma estimate_below_base :
  ~ Stated64.estimate_ge_base "maize" (lit 6) (lit 40) (lit 50) (lit 45) 500
      fractional_base_rules []
  /\ ~ Stated64.estimate_ge_base "maize" (lit 6) (lit 0) (lit 50) (lit 45) 500
         negative_base_rules []
  /\ ~ Stated64.estimate_ge_base "maize" (lit 6)
         (lit (9999999999999999 # 10000000000000000)) (lit 50) (lit 45) 500
         wide_base_rules [].
Proof.
  repeat split; intros H; unfold Stated64.estimate_ge_base in H;
    match type of H with
    | forall v, ?o = inr v -> _ =>
        remember o as out eqn:Eo; vm_compute in Eo; subst out
    end;
    destruct (H _ eq_refl) as (c & recN & recP & recK & Hc & He & HN & _);
    vm_compute in Hc; injection Hc as <-;
    injection He as <- _ _; vm_compute in HN; by apply HN.
Qed.


(** C3.  For a soil value below the threshold, [adjust] returns
    [round(base * (1.0 + 0.30 * severity))] computed in binary64, where
    the severity is the quotient [(low_thr - soil_value) / divisor]
    confined to the range from 0.0 to 1.0 (1.0 when the quotient is not
    a number) and the divisor is the threshold, or [1e-6] when the
    threshold is below that; an [int] threshold or base is converted to a
    float first.  The divisor is positive for every threshold, zero
    included, so the division is defined: [adjust] never raises a
    [ZeroDivisionError], its only exceptions being the [OverflowError]
    and [ValueError] of a conversion or of [round]. *)
Theorem adjust_low_formula base soil_value low_thr :
  lt_num soil_value low_thr = true ->
  adjust base soil_value low_thr = Stated64.boosted base soil_value low_thr
  /\ (forall t, to_float low_thr = inr t ->
        flt zero (Stated64.divisor t) = true)
  /\ (forall e, adjust base soil_value low_thr = inl e ->
        isinstance e ZeroDivisionError = false
        /\ (exc_type e = OverflowError \/ exc_type e = ValueError)).
Proof.
  intros Hlt. split; [by apply adjust_boosted|]. split.
  - intros t Ht. by apply (divisor_positive soil_value low_thr).
  - intros e He. pose proof (adjust_raises _ _ _ _ He) as H.
    split; [|done]. unfold isinstance. by destruct H as [-> | ->].
Qed.

Lemma adjust_low_formula_witness :
  adjust (Int 120) (lit (-5)) (Float zero)
  = Stated64.boosted (Int 120) (lit (-5)) (Float zero)
  /\ (forall t, to_float (Float zero) = inr t ->
        flt zero (Stated64.divisor t) = true)
  /\ (forall e, adjust (Int 120) (lit (-5)) (Float zero) = inl e ->
        isinstance e ZeroDivisionError = false
        /\ (exc_type e = OverflowError \/ exc_type e = ValueError)).
Proof.
  apply (adjust_low_formula (Int 120) (lit (-5)) (Float zero)).
  vm_compute. reflexivity.
Defined.

(** C4, as amended.  For a base that is not negative and that its
    conversion to a float leaves unchanged, [adjust] is antitone in the
    soil value: when the call for the lower soil value returns, so does
    the call for the higher one, and with a result that is not greater. *)
Theorem adjust_antitone_nonneg_base base low_thr soil1 soil2 a1 :
  nonneg base = true -> representable base = true ->
  fle soil1 soil2 = true ->
  adjust base soil1 low_thr = inr a1 ->
  exists a2, adjust base soil2 low_thr = inr a2 /\ (a2 <= a1)%Z.
Proof.
  intros Hn Hr Hle H1.
  destruct (lt_num soil2 low_thr) eqn:L2.
  - pose proof (lt_num_fle _ _ _ Hle L2) as L1.
    rewrite (adjust_boosted _ _ _ L1) in H1.
    rewrite (adjust_boosted _ _ _ L2).
    destruct (boosted_inv _ _ _ _ H1) as (t & b & s & F & Ht & Hb & EF & HF & R).
    rewrite boosted_eq, Ht, Hb.
    pose proof (severity_antitone _ _ _ _ Ht L1 L2 Hle) as Hs.
    destruct (severity_range (fdiv (fsub t soil1) (Stated64.divisor t)))
      as (s1 & E1 & G1).
    destruct (severity_range (fdiv (fsub t soil2) (Stated64.divisor t)))
      as (s2 & E2 & G2).
    rewrite E1 in EF. rewrite E2.
    destruct (factor_fin s2 _ G2) as (s2' & EF2 & HF2). rewrite EF2.
    apply (boost_mono b _ _ s F); [| lra | | done].
    + destruct base as [z|f]; [|by injection Hb as ->].
      apply of_int_fin in Hb as ->. apply fle_Fin.
      simpl in Hn, Hr. apply Z.leb_le in Hn. apply Qeq_bool_iff in Hr.
      rewrite Qred_correct, Hr. change 0%Q with (inject_Z 0).
      by rewrite <- Zle_Qle.
    + assert (F = value (fadd one (fmul three_tenths
                (Fin s1 (value (Stated64.severity_of
                   (fdiv (fsub t soil1) (Stated64.divisor t))))))))
        as -> by (by rewrite EF).
      apply factor_mono; lra.
  - rewrite (adjust_base _ _ _ L2).
    destruct (lt_num soil1 low_thr) eqn:L1.
    + rewrite (adjust_boosted _ _ _ L1) in H1.
      destruct (boosted_inv _ _ _ _ H1)
        as (t & b & s & F & Ht & Hb & EF & HF & R).
      apply (boost_ge_base base b s F); try done. lra.
    + rewrite (adjust_base _ _ _ L1) in H1. exists a1. split; [done|lia].
Qed.

Lemma adjust_antitone_nonneg_base_witness :
  exists a2, adjust (Int 120) (lit 20) (Int 30) = inr a2 /\ (a2 <= 156)%Z.
Proof.
  apply (adjust_antitone_nonneg_base (Int 120) (Int 30) (lit 0) (lit 20) 156);
    vm_compute; reflexivity.
Defined.

(** The statement of the specification fails on the code in three ways.
    With a negative base the boost lowers the value:
    [adjust(-100, 0.0, 30)] is -130 and [adjust(-100, 30.0, 30)] is -100.
    With an [int] base that is not a double the boost works on the
    converted base and [round(base)] on the exact one:
    [adjust(2**53 + 1, 0.9999999999999999, 1.0)] is [2**53] and
    [adjust(2**53 + 1, 1.0, 1.0)] is [2**53 + 1].  With the base
    [1.5e308] the boosted product is infinite and [round] raises an
    [OverflowError], so there is no output to compare. *)
Lemma adjust_not_antitone :
  ~ Stated64.adjust_antitone (Int (-100)) (Int 30) (lit 0) (lit 30)
  /\ ~ Stated64.adjust_antitone (Int 9007199254740993) (Float one)
         (lit (9999999999999999 # 10000000000000000)) one
  /\ ~ Stated64.adjust_antitone
         (Float (lit (15 * 10 ^ 307))) (Int 30) (lit 0) (lit 30).
Proof.
  repeat split; intros H;
    destruct H as (a1 & a2 & H1 & H2 & Hle); try (vm_compute; reflexivity);
    vm_compute in H1, H2; try discriminate;
    injection H1 as <-; injection H2 as <-; lia.
Qed.




(** X3.  The boost is at most the full one: for a base that is not
    negative and that its conversion to a float leaves unchanged, a
    result of [adjust] is at most [round(base * 1.3)], whenever that
    rounded product exists. *)
Theorem adjust_boost_at_most_30_percent base soil_value low_thr b a m :
  nonneg base = true -> representable base = true ->
  to_float base = inr b ->
  adjust base soil_value low_thr = inr a ->
  round_float (fmul b (lit (13 # 10))) = inr m ->
  (a <= m)%Z.
Proof.
  intros Hn Hr Hb H Hm. destruct full_factor_fin as (F13 & E13 & H13).
  destruct (lt_num soil_value low_thr) eqn:L.
  - rewrite (adjust_boosted _ _ _ L) in H.
    destruct (boosted_inv _ _ _ _ H)
      as (t & b' & s & F & Ht & Hb' & EF & HF & R).
    assert (b' = b) as -> by congruence.
    destruct (severity_range (fdiv (fsub t soil_value) (Stated64.divisor t)))
      as (s1 & E1 & G1).
    rewrite E1 in EF.
    assert (F <= F13)%Q as HF13.
    { assert (F = value (fadd one (fmul three_tenths
                (Fin s1 (value (Stated64.severity_of
                   (fdiv (fsub t soil_value) (Stated64.divisor t))))))))
        as -> by (by rewrite EF).
      assert (F13 = value (fadd one (fmul three_tenths (Fin false 1))))
        as -> by (by fold one; rewrite full_factor, E13).
      apply factor_mono; lra. }
    rewrite E13 in Hm.
    destruct (boost_mono b s F false F13 m) as (a' & Ha' & Hle);
      [| lra | exact HF13 | exact Hm |].
    + destruct base as [z|f]; [|by injection Hb as ->].
      apply of_int_fin in Hb as ->. apply fle_Fin.
      simpl in Hn, Hr. apply Z.leb_le in Hn. apply Qeq_bool_iff in Hr.
      rewrite Qred_correct, Hr. change 0%Q with (inject_Z 0).
      by rewrite <- Zle_Qle.
    + congruence.
  - rewrite (adjust_base _ _ _ L) in H. rewrite E13 in Hm.
    destruct (boost_ge_base base b false F13 m) as (r & Er & Hle);
      [exact Hn|exact Hr|exact Hb|exact H13|exact Hm|].
    congruence.
Qed.

Lemma adjust_boost_at_most_30_percent_witness : (132 <= 156)%Z.
Proof.
  apply (adjust_boost_at_most_30_percent (Int 120) (lit 20) (Int 30)
           (lit 120) 132 156); vm_compute; reflexivity.
Defined.

(** X4.  The full boost: when the threshold is at least [1e-6] and is
    left unchanged by the conversion to a float, and the soil value is
    zero or negative, the severity is 1.0 and [adjust] returns
    [round(base * 1.3)], the product being the binary64 one; it raises
    what the conversion of the base or [round] raises.  For a positive
    threshold below [1e-6] the divisor is [1e-6] and the boost is not
    full: [adjust(100, 0.0, 1e-7)] is 103. *)
Theorem adjust_full_boost base soil_value low_thr t :
  representable low_thr = true -> to_float low_thr = inr t ->
  fle millionth t = true -> fle soil_value zero = true ->
  adjust base soil_value low_thr
  = match to_float base with
    | inl e => inl e
    | inr b => round_float (fmul b (lit (13 # 10)))
    end
  /\ adjust (Int 100) zero (Float (lit (1 # 10000000))) = inr 103%Z.
Proof.
  intros Hr Ht Hm Hs. split; [|by vm_compute].
  pose proof (below_threshold _ _ _ Ht Hm Hs) as L.
  rewrite (adjust_boosted _ _ _ L), boosted_eq, Ht.
  cbv zeta. rewrite severity_full; try assumption.
  - by rewrite full_factor.
  - destruct low_thr as [z|f]; [|by injection Ht as ->].
    by apply (of_int_double z).
Qed.

Lemma adjust_full_boost_witness :
  adjust (Float (lit (14999999999999998 # 1000000000000000))) zero (Int 30)
  = round_float
      (fmul (lit (14999999999999998 # 1000000000000000)) (lit (13 # 10)))
  /\ adjust (Int 100) zero (Float (lit (1 # 10000000))) = inr 103%Z.
Proof.
  apply (adjust_full_boost
           (Float (lit (14999999999999998 # 1000000000000000))) zero (Int 30)
           (lit 30)); vm_compute; reflexivity.
Defined.


(** ** Checks of the arithmetic

    The operations of [F64] agree with the standard library's
    specification of binary64 on the doubles 0.3, 7.25 and 0.1, on the
    subnormal [3 * 2**-1074] halved and on the largest double doubled;
    [adjust], the format and [round(x, 2)] give the values that Python
    prints. *)

Example operations_agree_with_SpecFloat :
  let a := S754_finite false 5404319552844595 (-54) in
  let b := S754_finite false 8162774324609024 (-50) in
  let c := S754_finite false 7205759403792794 (-56) in
  let tiny := S754_finite false 3 (-1074) in
  let half := S754_finite false 4503599627370496 (-53) in
  let largest := S754_finite false 9007199254740991 971 in
  same (fmul (of_spec a) (of_spec b)) (of_spec (SFmul 53 1024 a b)) = true
  /\ same (fadd (of_spec c) (of_spec a)) (of_spec (SFadd 53 1024 c a)) = true
  /\ same (fsub (of_spec c) (of_spec a)) (of_spec (SFsub 53 1024 c a)) = true
  /\ same (fdiv (of_spec b) (of_spec a)) (of_spec (SFdiv 53 1024 b a)) = true
  /\ same (fmul (of_spec tiny) (of_spec half))
        (of_spec (SFmul 53 1024 tiny half)) = true
  /\ same (fdiv (of_spec tiny) (of_spec b))
        (of_spec (SFdiv 53 1024 tiny b)) = true
  /\ same (fadd (of_spec largest) (of_spec largest))
        (of_spec (SFadd 53 1024 largest largest)) = true
  /\ same (fmul (of_spec largest) (of_spec a))
        (of_spec (SFmul 53 1024 largest a)) = true
  /\ same (lit (3 # 10)) (of_spec a) = true
  /\ same (lit (1 # 10)) (of_spec c) = true.
Proof. by vm_compute. Qed.

Example adjust_values :
  adjust (Int 50) (lit 10) (Int 20) = inr 57%Z
  /\ adjust (Int 100) (lit 5) (Int 20) = inr 123%Z
  /\ adjust (Int 120) (lit 20) (Int 30) = inr 132%Z
  /\ adjust (Float (lit (14999999999999998 # 1000000000000000))) zero (Int 30)
     = inr 20%Z
  /\ adjust (Int 9007199254740993)
       (lit (9999999999999999 # 10000000000000000)) (Float one)
     = inr 9007199254740992%Z
  /\ adjust (Int 9007199254740993) one (Float one) = inr 9007199254740993%Z
  /\ adjust (Float (lit (15 * 10 ^ 307))) zero (Int 30)
     = inl (Exc OverflowError "cannot convert float infinity to integer")
  /\ adjust (Float NaN) zero (Int 30)
     = inl (Exc ValueError "cannot convert float NaN to integer")
  /\ adjust (Int (10 ^ 400)) zero (Int 30)
     = inl (Exc OverflowError "int too large to convert to float")
  /\ adjust (Int 120) NaN (Int 30) = inr 120%Z
  /\ adjust (Int 120) (Inf true) (Int 30) = inr 156%Z
  /\ adjust (Int 120) (lit (-5)) (Float zero) = inr 156%Z.
Proof. by vm_compute. Qed.

Example format_values :
  format_1f (lit (25 # 100)) = "0.2"
  /\ format_1f (lit (35 # 100)) = "0.3"
  /\ format_1f (lit (-4 # 100)) = "-0.0"
  /\ format_1f (lit (65 # 10)) = "6.5"
  /\ format_1f (Inf true) = "-inf"
  /\ same (round2 (lit (5 # 1000))) (lit (1 # 100)) = true
  /\ same (round2 (lit (2675 # 1000))) (lit (267 # 100)) = true.
Proof. by vm_compute. Qed.

(** ** Facts about the history file *)

Module HistoryFacts.
Import History.

Lemma outdir_not_history : OUTDIR <> HISTORY_PATH.
Proof. discriminate. Qed.

(** The history that [save_history] loads is the stored one. *)
Lemma loaded_history (s : store) :
  (if path_exists (<[OUTDIR := Dir]> s) HISTORY_PATH then
     match try_load (<[OUTDIR := Dir]> s) HISTORY_PATH with
     | Some (JList loaded) => loaded
     | Some _ => []
     | None => []
     end
   else [])
  = stored_history s.
Proof.
  unfold path_exists, try_load, stored_history.
  rewrite lookup_insert_ne by apply outdir_not_history.
  by destruct (s !! HISTORY_PATH) as [[|[|[]]]|].
Qed.

(** A call that gets past [os.makedirs] and [open]: the history file is
    replaced, by the new array or by what a failed [json.dump] leaves. *)
Lemma save_history_run dump_error entry (s : store) :
  (forall c, s !! OUTDIR <> Some (File c)) ->
  s !! HISTORY_PATH <> Some Dir ->
  save_history dump_error entry s
  = match dump_error (JList (stored_history s ++ [entry])) with
    | Some e =>
        (inl e, <[HISTORY_PATH := File Unreadable]> (<[OUTDIR := Dir]> s))
    | None =>
        (inr tt,
         <[HISTORY_PATH := File (Doc (JList (stored_history s ++ [entry])))]>
           (<[OUTDIR := Dir]> s))
    end.
Proof.
  intros Hout Hdir. unfold save_history, ensure_outdir.
  assert (match s !! OUTDIR with
          | Some (File _) => inl FileExistsError
          | _ => inr (<[OUTDIR := Dir]> s)
          end = (inr (<[OUTDIR := Dir]> s) : error + store)) as ->.
  { destruct (s !! OUTDIR) as [[|c]|] eqn:E; try done. by destruct (Hout c). }
  cbv zeta. rewrite loaded_history. unfold write_json.
  rewrite lookup_insert_ne by apply outdir_not_history.
  by destruct (s !! HISTORY_PATH) as [[|c]|].
Qed.

End HistoryFacts.


Import History HistoryFacts.

(** X12.  [save_history] appends, when nothing stands in its way.  If
    [outputs] is not a regular file, the path of the history file is not
    a directory and [json.dump] does not raise on the new array, the call
    returns, and afterwards the history file holds the entries that a run
    would have found before, in their order, and then the new entry (a
    file that was missing, unreadable or not an array counts as holding
    none); the output directory exists, and no other path is touched. *)
Theorem save_history_appends dump_error entry (s : store) :
  (forall c, s !! OUTDIR <> Some (File c)) ->
  s !! HISTORY_PATH <> Some Dir ->
  dump_error (JList (stored_history s ++ [entry])) = None ->
  exists s',
    save_history dump_error entry s = (inr tt, s')
    /\ s' !! HISTORY_PATH
       = Some (File (Doc (JList (stored_history s ++ [entry]))))
    /\ stored_history s' = stored_history s ++ [entry]
    /\ s' !! OUTDIR = Some Dir
    /\ forall path, path <> HISTORY_PATH -> path <> OUTDIR ->
         s' !! path = s !! path.
Proof.
  intros Hout Hdir Hdump.
  rewrite (save_history_run _ _ _ Hout Hdir), Hdump. eexists.
  split; [done|]. split; [apply lookup_insert_eq|]. split.
  { unfold stored_history at 1. by rewrite lookup_insert_eq. }
  split.
  - rewrite lookup_insert_ne by (apply not_eq_sym, outdir_not_history).
    apply lookup_insert_eq.
  - intros path H1 H2. by rewrite !lookup_insert_ne.
Qed.

Lemma save_history_appends_witness :
  exists s',
    save_history codec_error (JStr "second")
      (<[HISTORY_PATH := File (Doc (JList [JStr "first"]))]> ∅)
    = (inr tt, s')
    /\ s' !! HISTORY_PATH
       = Some (File (Doc (JList
           (stored_history
              (<[HISTORY_PATH := File (Doc (JList [JStr "first"]))]> ∅)
            ++ [JStr "second"]))))
    /\ stored_history s'
       = stored_history
           (<[HISTORY_PATH := File (Doc (JList [JStr "first"]))]> ∅)
         ++ [JStr "second"]
    /\ s' !! OUTDIR = Some Dir
    /\ forall path, path <> HISTORY_PATH -> path <> OUTDIR ->
         s' !! path
         = (<[HISTORY_PATH := File (Doc (JList [JStr "first"]))]> ∅
              : store) !! path.
Proof.
  apply (save_history_appends codec_error (JStr "second")
           (<[HISTORY_PATH := File (Doc (JList [JStr "first"]))]> ∅)).
  - intros c. vm_compute. discriminate.
  - vm_compute. discriminate.
  - vm_compute. reflexivity.
Defined.

(** X13.  [save_history] is not atomic: the file is emptied before the
    new array is written.  If [outputs] is not a regular file, the path
    of the history file is not a directory and [json.dump] raises on the
    new array, the call raises that exception and leaves a history file
    that cannot be read: the entries that were stored are lost, and the
    next run starts from an empty history.  A stored string with a
    surrogate code point, which [json.load] accepts and UTF-8 cannot
    encode, is a case. *)
Theorem save_history_not_atomic dump_error entry (s : store) e :
  (forall c, s !! OUTDIR <> Some (File c)) ->
  s !! HISTORY_PATH <> Some Dir ->
  dump_error (JList (stored_history s ++ [entry])) = Some e ->
  exists s',
    save_history dump_error entry s = (inl e, s')
    /\ s' !! HISTORY_PATH = Some (File Unreadable)
    /\ stored_history s' = []
    /\ forall path, path <> HISTORY_PATH -> path <> OUTDIR ->
         s' !! path = s !! path.
Proof.
  intros Hout Hdir Hdump.
  rewrite (save_history_run _ _ _ Hout Hdir), Hdump. eexists.
  split; [done|]. split; [apply lookup_insert_eq|]. split.
  { unfold stored_history. by rewrite lookup_insert_eq. }
  intros path H1 H2. by rewrite !lookup_insert_ne.
Qed.

Lemma save_history_not_atomic_witness :
  exists s',
    save_history codec_error (JStr "next") surrogate_store
    = (inl UnicodeEncodeError, s')
    /\ s' !! HISTORY_PATH = Some (File Unreadable)
    /\ stored_history s' = []
    /\ forall path, path <> HISTORY_PATH -> path <> OUTDIR ->
         s' !! path = surrogate_store !! path.
Proof.
  apply (save_history_not_atomic codec_error (JStr "next") surrogate_store
           UnicodeEncodeError).
  - intros c. vm_compute. discriminate.
  - vm_compute. discriminate.
  - vm_compute. reflexivity.
Defined.
